(** * GZ10 dataset builder: identifier lookup and example generation

    A shallow embedding of [scripts/gz10/gz10.py] (class [GZ10]): the
    sort-based identifier lookup of [_generate_examples], the assembly of
    the example dictionaries, the traversal of the shard files and
    [_split_generators].

    Conventions of the embedding.
    - An HDF5 shard is a record of optional typed columns; reading an absent
      column is Python's [KeyError], reading a row past the end of a column
      is [IndexError].
    - Identifiers and labels are integers ([Z]); the identifier column is
      a 64-bit signed column ([int64]).  Floating-point columns hold
      IEEE-754 values ([spec_float] of the Standard Library) and
      [.astype(np.float32)] is rounding to binary32.
    - A generator is the list of the pairs it yields together with the
      exception that ended it, if any.
    - [np.argsort] is called with its default [kind], which NumPy documents
      as not stable; it is a parameter of the development, constrained by
      its contract (it returns a permutation of the row positions that
      sorts the column).  Executable instances are given: two insertion
      sorts and the sorting network NumPy runs on short columns.
    - [np.searchsorted] is the left-biased binary search NumPy runs.  It
      compares the key with the identifiers exactly, as NumPy does when the
      key is itself a 64-bit signed integer; a key outside that range is
      compared by NumPy after a conversion to floating point, which is not
      modelled, so what is stated about keys that do not occur in a column
      is stated for [int64] keys. *)

From Stdlib Require Import ZArith Floats.SpecFloat DecimalString QArith Qabs.
From Stdlib Require Import Ascii DecimalZ DecimalPos.
From stdpp Require Import gmap strings list fin_maps sorting.

Local Open Scope Z_scope.

(** ** Exceptions and the error monad *)

Inductive Exn : Type :=
| ValueError (msg : string)
| FileNotFoundError (path : string)
| KeyError (name : string)
| IndexError.

Global Instance Exn_eq_dec : EqDecision Exn.
Proof. solve_decision. Defined.

Definition result (A : Type) : Type := Exn + A.

Definition rbind {A B : Type} (m : result A) (f : A → result B) : result B :=
  match m with
  | inl e => inl e
  | inr a => f a
  end.

Notation "x ←ᵣ m ; k" := (rbind m (λ x, k))
  (at level 20, m at level 100, k at level 200, right associativity,
   format "x  ←ᵣ  m ;  '/' k").

(** ** Values and shards *)

(** A pixel array, flattened. *)
Definition ndarray_uint8 : Type := list Z.

(** The values stored in an example dictionary. *)
Inductive Value : Type :=
| VInt32 (z : Z)
| VFloat32 (f : spec_float)
| VFloat (f : spec_float)
| VStr (s : string)
| VImage (a : ndarray_uint8).

Global Instance spec_float_eq_dec : EqDecision spec_float.
Proof. solve_decision. Defined.

Global Instance Value_eq_dec : EqDecision Value.
Proof. solve_decision. Defined.

(** The columns of one HDF5 file, as [data[name]] finds them. *)
Record H5File : Type := {
  h5_object_id : option (list Z);
  h5_ans : option (list Z);
  h5_redshift : option (list spec_float);
  h5_images : option (list ndarray_uint8);
  h5_pxscale : option (list spec_float);
}.

(** [data[name][i]] for a non-negative [i]. *)
Definition getitem {A : Type} (name : string) (col : option (list A)) (i : nat)
  : result A :=
  match col with
  | None => inl (KeyError name)
  | Some l =>
      match l !! i with
      | None => inl IndexError
      | Some x => inr x
      end
  end.

(** [str] of an integer: decimal digits, a leading minus sign when negative. *)
Definition str (z : Z) : string := NilZero.string_of_int (Z.to_int z).

(** [.astype(np.int32)]: two's complement wrap-around to 32 bits. *)
Definition astype_int32 (z : Z) : Z := (z + 2 ^ 31) mod 2 ^ 32 - 2 ^ 31.

(** [.astype(np.float32)]: rounding to binary32 (24 bits of precision,
    exponents below 128), to nearest with ties to even. *)
Definition astype_float32 (f : spec_float) : spec_float :=
  match f with
  | S754_finite s m e => binary_round 24 128 s m e
  | _ => f
  end.

(** ** 64-bit identifiers *)

(** The values of a 64-bit signed integer. *)
Definition int64 (z : Z) : Prop := - 2 ^ 63 ≤ z < 2 ^ 63.

Global Instance int64_dec (z : Z) : Decision (int64 z).
Proof. unfold int64. apply _. Defined.

(** ** [np.searchsorted(sorted_ids, k)], side ['left'] *)

(** The loop [while min_idx < max_idx] of the binary search; [fuel] bounds
    the number of iterations. *)
Fixpoint binsearch_left (fuel : nat) (arr : list Z) (key : Z)
    (min_idx max_idx : nat) : nat :=
  match fuel with
  | O => min_idx
  | S fuel' =>
      if decide (min_idx < max_idx)%nat then
        let mid_idx := (min_idx + (max_idx - min_idx) / 2)%nat in
        match arr !! mid_idx with
        | Some v =>
            if decide (v < key)
            then binsearch_left fuel' arr key (S mid_idx) max_idx
            else binsearch_left fuel' arr key min_idx mid_idx
        | None => min_idx
        end
      else min_idx
  end.

Definition searchsorted (arr : list Z) (key : Z) : nat :=
  binsearch_left (length arr) arr key 0 (length arr).

(** ** The sort index *)

(** [a[idx]] with an integer index array: every index must be in range. *)
Definition fancy_index (a : list Z) (idx : list nat) : result (list Z) :=
  match mapM (λ i, a !! i) idx with
  | Some l => inr l
  | None => inl IndexError
  end.

(** The contract of [np.argsort] on a one-dimensional array: the result is
    a permutation of the positions, and reading the array through it gives
    an ascending sequence. *)
Definition is_argsort (a : list Z) (p : list nat) : Prop :=
  p ≡ₚ seq 0 (length a) ∧
  ∃ s, fancy_index a p = inr s ∧ Sorted Z.le s.

Definition argsort_contract (argsort : list Z → list nat) : Prop :=
  ∀ a, is_argsort a (argsort a).

(** Executable instances: insertion sort of the positions by their
    identifier.  [before x y] decides whether a position holding [x] is put
    in front of a later position holding [y]. *)
Section insertion_argsort.
Variable before : Z → Z → bool.

Fixpoint insert_pos (a : list Z) (i : nat) (x : Z) (p : list nat) : list nat :=
  match p with
  | [] => [i]
  | j :: p' =>
      if before x (default 0 (a !! j)) then i :: j :: p'
      else j :: insert_pos a i x p'
  end.

Fixpoint argsort_from (a : list Z) (i : nat) (l : list Z) : list nat :=
  match l with
  | [] => []
  | x :: l' => insert_pos a i x (argsort_from a (S i) l')
  end.

Definition insertion_argsort (a : list Z) : list nat := argsort_from a 0%nat a.
End insertion_argsort.

(** Equal identifiers keep their original relative order. *)
Definition argsort_stable : list Z → list nat := insertion_argsort Z.leb.

(** Equal identifiers come out in reverse of their original order.  This
    is not what NumPy computes: it is one more function that meets the
    contract of [np.argsort], used where a statement is made for every
    such function. *)
Definition argsort_reversing : list Z → list nat := insertion_argsort Z.ltb.

(** [np.argsort] as NumPy runs it on a column of at most eight 64-bit
    identifiers on a processor with AVX-512: the column and the positions
    0, 1, ... fill the eight lanes of one vector register each, the lanes
    that remain holding the largest key and the largest position, and six
    compare-and-merge steps of a bitonic network sort the keys, every
    position following its key. *)
Definition INT64_MAX : Z := 2 ^ 63 - 1.

Definition UINT64_MAX : Z := 2 ^ 64 - 1.

(** Lane [l] of the result is lane [idx[l]] of the vector. *)
Definition permutexvar (idx : list nat) (v : list (Z * Z)) : list (Z * Z) :=
  (λ i, default (INT64_MAX, UINT64_MAX) (v !! i)) <$> idx.

(** One step on (key, position) lanes: a lane whose mask bit is set takes
    the larger of its key and the key of the other vector, a lane whose
    bit is clear the smaller; it keeps its position when the key it took
    equals its own, and takes the other position otherwise. *)
Definition cmp_merge (v v' : list (Z * Z)) (mask : list bool) : list (Z * Z) :=
  zip_with (λ (m : bool) (p : (Z * Z) * (Z * Z)),
              let '((k, i), (k', i')) := p in
              let tmp := if m then Z.max k' k else Z.min k' k in
              (tmp, if decide (tmp = k) then i else i'))
           mask (zip v v').

(** The masks 0xAA, 0xCC and 0xF0, lane 0 first. *)
Definition mask_0xAA : list bool :=
  [false; true; false; true; false; true; false; true].

Definition mask_0xCC : list bool :=
  [false; false; true; true; false; false; true; true].

Definition mask_0xF0 : list bool :=
  [false; false; false; false; true; true; true; true].

(** The lane permutations of the network, lane 0 first: neighbours
    swapped, each half reversed, the whole reversed, pairs swapped. *)
Definition SHUFFLE_1_1_1_1 : list nat := [1; 0; 3; 2; 5; 4; 7; 6]%nat.

Definition NETWORK_64BIT_1 : list nat := [3; 2; 1; 0; 7; 6; 5; 4]%nat.

Definition NETWORK_64BIT_2 : list nat := [7; 6; 5; 4; 3; 2; 1; 0]%nat.

Definition NETWORK_64BIT_3 : list nat := [2; 3; 0; 1; 6; 7; 4; 5]%nat.

Definition sort_zmm_64bit (v : list (Z * Z)) : list (Z * Z) :=
  let v := cmp_merge v (permutexvar SHUFFLE_1_1_1_1 v) mask_0xAA in
  let v := cmp_merge v (permutexvar NETWORK_64BIT_1 v) mask_0xCC in
  let v := cmp_merge v (permutexvar SHUFFLE_1_1_1_1 v) mask_0xAA in
  let v := cmp_merge v (permutexvar NETWORK_64BIT_2 v) mask_0xF0 in
  let v := cmp_merge v (permutexvar NETWORK_64BIT_3 v) mask_0xCC in
  cmp_merge v (permutexvar SHUFFLE_1_1_1_1 v) mask_0xAA.

(** Columns of more than eight identifiers take other paths in NumPy
    (several registers merged, then partitioning), which are not modelled:
    this function sorts them by insertion and nothing is drawn from it
    there. *)
Definition argsort_avx512 (a : list Z) : list nat :=
  if decide (length a ≤ 8)%nat then
    let lanes := zip a (Z.of_nat <$> seq 0 (length a))
                 ++ replicate (8 - length a) (INT64_MAX, UINT64_MAX) in
    Z.to_nat <$> (take (length a) (sort_zmm_64bit lanes)).*2
  else argsort_stable a.

(** ** The generator *)

(** [data_files] maps a split name to one path or to a list of paths. *)
Inductive Files : Type :=
| FilesStr (s : string)
| FilesList (l : list string).

Record Config : Type := {
  name : string;
  data_files : option (list (string * Files));
}.

Record SplitGenerator : Type := {
  split_name : string;
  gen_kwargs_files : list string;
}.

(** The file system the builder reads, and the HDF5 handles now open
    (innermost first). *)
Record World : Type := {
  files : gmap string H5File;
  handles : list string;
}.

(** [h5py.File(file_path, "r")] on entering the [with] block. *)
Definition h5py_File (w : World) (file_path : string) : result (H5File * World) :=
  match files w !! file_path with
  | None => inl (FileNotFoundError file_path)
  | Some data =>
      inr (data, {| files := files w; handles := file_path :: handles w |})
  end.

(** Leaving the [with] block closes the handle it opened. *)
Definition h5py_close (w : World) : World :=
  {| files := files w; handles := tail (handles w) |}.

Abbreviation Example_dict := (gmap string Value).

(** What a generator did: the pairs it yielded, in order, and the exception
    that ended it, if one did. *)
Record Run : Type := {
  emitted : list (string * Example_dict);
  raised : option Exn;
}.

Section generate.
Variable argsort : list Z → list nat.

(** Lines 142-143: the index over one identifier column. *)
Definition build_index (ids : option (list Z)) : result (list nat * list Z) :=
  match ids with
  | None => inl (KeyError "object_id")
  | Some a =>
      let sort_index := argsort a in
      sorted_ids ←ᵣ fancy_index a sort_index;
      inr (sort_index, sorted_ids)
  end.

(** Line 147: [sort_index[np.searchsorted(sorted_ids, k)]]. *)
Definition lookup_row (index : list nat * list Z) (k : Z) : result nat :=
  match index.1 !! searchsorted index.2 k with
  | Some i => inr i
  | None => inl IndexError
  end.

(** Index construction followed by one lookup. *)
Definition resolve (ids : list Z) (k : Z) : result nat :=
  index ←ᵣ build_index (Some ids);
  lookup_row index k.

(** Lines 147-163: the body of [for k in keys], up to the [yield]. *)
Definition example_for (cfg : Config) (data : H5File)
    (index : list nat * list Z) (k : Z) : result (string * Example_dict) :=
  i ←ᵣ lookup_row index k;
  label ←ᵣ getitem "ans" (h5_ans data) i;
  z ←ᵣ getitem "redshift" (h5_redshift data) i;
  let example : Example_dict :=
    <["redshift" := VFloat32 (astype_float32 z)]>
      (<["gz10_label" := VInt32 (astype_int32 label)]> ∅) in
  example ←ᵣ
    (if decide (name cfg = "gz10_rgb_images") then
       image ←ᵣ getitem "images" (h5_images data) i;
       pxscale ←ᵣ getitem "pxscale" (h5_pxscale data) i;
       inr (<["rgb_pixel_scale" := VFloat pxscale]>
              (<["rgb_image" := VImage image]> example))
     else inr example);
  oid ←ᵣ getitem "object_id" (h5_object_id data) i;
  let example : Example_dict := <["object_id" := VStr (str oid)]> example in
  oid' ←ᵣ getitem "object_id" (h5_object_id data) i;
  inr (str oid', example).

(** Lines 145-163: the loop over the keys of one shard. *)
Fixpoint for_keys (cfg : Config) (data : H5File) (index : list nat * list Z)
    (keys : list Z) : Run :=
  match keys with
  | [] => {| emitted := []; raised := None |}
  | k :: keys' =>
      match example_for cfg data index k with
      | inl e => {| emitted := []; raised := Some e |}
      | inr kv =>
          let r := for_keys cfg data index keys' in
          {| emitted := kv :: emitted r; raised := raised r |}
      end
  end.

(** Lines 136-139: the keys of shard number [j]. *)
Definition select_keys (object_ids : option (list (list Z))) (j : nat)
    (data : H5File) : result (list Z) :=
  match object_ids with
  | Some oids =>
      match oids !! j with
      | Some ks => inr ks
      | None => inl IndexError
      end
  | None =>
      match h5_object_id data with
      | Some ids => inr ids
      | None => inl (KeyError "object_id")
      end
  end.

(** Lines 136-163: the body of the [with] block. *)
Definition shard_body (cfg : Config) (j : nat) (data : H5File)
    (object_ids : option (list (list Z))) : Run :=
  match (keys ←ᵣ select_keys object_ids j data;
         index ←ᵣ build_index (h5_object_id data);
         inr (keys, index)) with
  | inl e => {| emitted := []; raised := Some e |}
  | inr (keys, index) => for_keys cfg data index keys
  end.

(** Lines 134-163: [for j, file_path in enumerate(files)], from [j] on. *)
Fixpoint for_files (cfg : Config) (w : World) (j : nat)
    (paths : list string) (object_ids : option (list (list Z)))
    : Run * World :=
  match paths with
  | [] => ({| emitted := []; raised := None |}, w)
  | file_path :: paths' =>
      match h5py_File w file_path with
      | inl e => ({| emitted := []; raised := Some e |}, w)
      | inr (data, w1) =>
          let r := shard_body cfg j data object_ids in
          let w2 := h5py_close w1 in
          match raised r with
          | Some _ => (r, w2)
          | None =>
              let '(r', w3) := for_files cfg w2 (S j) paths' object_ids in
              ({| emitted := emitted r ++ emitted r'; raised := raised r' |},
               w3)
          end
      end
  end.

Definition _generate_examples (cfg : Config) (w : World)
    (paths : list string) (object_ids : option (list (list Z)))
    : Run * World :=
  for_files cfg w 0%nat paths object_ids.

(** The loop of the builder base class over the split generators: each is
    run as [_generate_examples] on its [gen_kwargs], so [object_ids] is
    [None];
    an exception ends the build. *)
Fixpoint prepare_splits (cfg : Config) (w : World)
    (splits : list SplitGenerator) : Run * World :=
  match splits with
  | [] => ({| emitted := []; raised := None |}, w)
  | sg :: splits' =>
      let '(r, w1) := _generate_examples cfg w (gen_kwargs_files sg) None in
      match raised r with
      | Some _ => (r, w1)
      | None =>
          let '(r', w2) := prepare_splits cfg w1 splits' in
          ({| emitted := emitted r ++ emitted r'; raised := raised r' |}, w2)
      end
  end.
End generate.

(** ** [_split_generators] *)

Definition no_data_files (shown : string) : Exn :=
  ValueError
    ("At least one data file must be specified, but got data_files=" +:+ shown).

Definition split_generator (item : string * Files) : SplitGenerator :=
  {| split_name := item.1;
     gen_kwargs_files :=
       match item.2 with
       | FilesStr s => [s]
       | FilesList l => l
       end |}.

Definition _split_generators (cfg : Config) : result (list SplitGenerator) :=
  match data_files cfg with
  | None => inl (no_data_files "None")
  | Some [] => inl (no_data_files "{}")
  | Some items => inr (split_generator <$> items)
  end.

(** Split generation followed by example generation for every split. *)
Definition download_and_prepare (argsort : list Z → list nat) (cfg : Config)
    (w : World) : Run * World :=
  match _split_generators cfg with
  | inl e => ({| emitted := []; raised := Some e |}, w)
  | inr splits => prepare_splits argsort cfg w splits
  end.

(** ** Reading floating-point values *)

(** The rational a finite IEEE value denotes (zero for the others). *)
Definition SF2Q (f : spec_float) : Q :=
  match f with
  | S754_finite s m e =>
      let n := cond_Zopp s (Z.pos m) in
      if decide (0 ≤ e) then inject_Z (n * 2 ^ e)
      else Qmake n (Z.to_pos (2 ^ (- e)))
  | _ => 0%Q
  end.

(** The binary64 number nearest to [n / d], as a decimal literal reads. *)
Definition float64_of_ratio (n d : Z) : spec_float :=
  SFdiv 53 1024 (binary_normalize 53 1024 n 0 false)
                (binary_normalize 53 1024 d 0 false).

(** ** The requests of a traversal *)

(** What the traversal is asked for, in the order it is asked: for every
    file that opens, in file order, each key of its key set, in the order
    of the key set, paired with the shard it is looked up in. *)
Definition shard_requests (fs : gmap string H5File)
    (object_ids : option (list (list Z))) (j : nat) (file_path : string)
  : list (H5File * Z) :=
  match fs !! file_path with
  | Some data =>
      match select_keys object_ids j data with
      | inr keys => (λ k, (data, k)) <$> keys
      | inl _ => []
      end
  | None => []
  end.

Fixpoint requests_from (fs : gmap string H5File)
    (object_ids : option (list (list Z))) (j : nat) (paths : list string)
  : list (H5File * Z) :=
  match paths with
  | [] => []
  | file_path :: paths' =>
      shard_requests fs object_ids j file_path
        ++ requests_from fs object_ids (S j) paths'
  end.

Definition requests (fs : gmap string H5File)
    (object_ids : option (list (list Z))) (paths : list string)
  : list (H5File * Z) :=
  requests_from fs object_ids 0%nat paths.

(** One request answered on its own: the index of the shard is built and
    the loop body is run for the key. *)
Definition answer (argsort : list Z → list nat) (cfg : Config)
    (req : H5File * Z) : result (string * Example_dict) :=
  index ←ᵣ build_index argsort (h5_object_id req.1);
  example_for cfg req.1 index req.2.

(** Whether the key of a request occurs in the identifier column of its
    shard. *)
Definition key_present (req : H5File * Z) : Prop :=
  ∃ ids, h5_object_id req.1 = Some ids ∧ req.2 ∈ ids.

(** The field names of the two schemas. *)
Definition catalog_fields : gset string :=
  {[ "gz10_label"; "redshift"; "object_id" ]}.

Definition image_fields : gset string :=
  {[ "gz10_label"; "redshift"; "object_id"; "rgb_image"; "rgb_pixel_scale" ]}.

(** ** The catalogue of the end-to-end scenario *)

(** Three galaxies; the image and pixel-scale columns are left open. *)
Definition scenario_shard (images : option (list ndarray_uint8))
    (pxscale : option (list spec_float)) : H5File :=
  {| h5_object_id := Some [10; 20; 30];
     h5_ans := Some [2; 5; 9];
     h5_redshift := Some [float64_of_ratio 1 10; float64_of_ratio 2 10;
                          float64_of_ratio 3 10];
     h5_images := images;
     h5_pxscale := pxscale |}.

(** A world holding one file and no open handle. *)
Definition single_file_world (file_path : string) (data : H5File) : World :=
  {| files := {[ file_path := data ]}; handles := [] |}.

(** The binary32 number nearest to 0.2. *)
Definition float32_0_2 : spec_float := S754_finite false 13421773 (-26).

(** The two entries of [BUILDER_CONFIGS]. *)
Definition builder_config (n : string) : Config :=
  {| name := n;
     data_files := Some [("train", FilesList ["datafiles/healpix=*/*.h5"])] |}.

Definition BUILDER_CONFIGS : list Config :=
  [builder_config "gz10"; builder_config "gz10_rgb_images"].

(** A second shard, sharing identifiers with the first, and a world that
    holds both. *)
Definition second_shard : H5File :=
  {| h5_object_id := Some [30; 10];
     h5_ans := Some [7; 1];
     h5_redshift := Some [float64_of_ratio 3 10; float64_of_ratio 1 10];
     h5_images := None;
     h5_pxscale := None |}.

Definition two_file_world : World :=
  {| files := <["b.h5" := second_shard]> {[ "a.h5" := scenario_shard None None ]};
     handles := [] |}.

(** ** Conditions on shards *)

(** The identifiers of a shard are pairwise distinct. *)
Definition unique_ids (data : H5File) : Prop :=
  match h5_object_id data with
  | Some ids => NoDup ids
  | None => True
  end.

Global Instance unique_ids_dec (data : H5File) : Decision (unique_ids data).
Proof. unfold unique_ids. destruct (h5_object_id data); apply _. Defined.

(** A shard as the catalogue-only variant sees it: the image and
    pixel-scale columns taken away. *)
Definition without_images (data : H5File) : H5File :=
  {| h5_object_id := h5_object_id data;
     h5_ans := h5_ans data;
     h5_redshift := h5_redshift data;
     h5_images := None;
     h5_pxscale := None |}.

(** One generator run after another, as the loop over the files chains
    them: an exception in the first ends the whole. *)
Definition run_then (r1 r2 : Run) : Run :=
  match raised r1 with
  | Some _ => r1
  | None => {| emitted := emitted r1 ++ emitted r2; raised := raised r2 |}
  end.

(** Every column the active variant reads is there and reaches as far as
    the identifier column. *)
Definition complete_shard (cfg : Config) (data : H5File) : Prop :=
  ∃ ids labels zs,
    h5_object_id data = Some ids ∧
    h5_ans data = Some labels ∧
    h5_redshift data = Some zs ∧
    (length ids ≤ length labels)%nat ∧
    (length ids ≤ length zs)%nat ∧
    (name cfg = "gz10_rgb_images" →
     ∃ images pxscales,
       h5_images data = Some images ∧
       h5_pxscale data = Some pxscales ∧
       (length ids ≤ length images)%nat ∧
       (length ids ≤ length pxscales)%nat).

(** The pair [kv] holds what row [i] of the shard holds: its identifier
    as key and as [object_id], its label and redshift after the casts and,
    under [gz10_rgb_images], its image and pixel scale. *)
Definition reads_row (cfg : Config) (data : H5File) (i : nat)
    (kv : string * Example_dict) : Prop :=
  ∃ oid label z,
    getitem "object_id" (h5_object_id data) i = inr oid ∧
    getitem "ans" (h5_ans data) i = inr label ∧
    getitem "redshift" (h5_redshift data) i = inr z ∧
    kv.1 = str oid ∧
    kv.2 !! "object_id" = Some (VStr (str oid)) ∧
    kv.2 !! "gz10_label" = Some (VInt32 (astype_int32 label)) ∧
    kv.2 !! "redshift" = Some (VFloat32 (astype_float32 z)) ∧
    if decide (name cfg = "gz10_rgb_images") then
      ∃ image pxscale,
        getitem "images" (h5_images data) i = inr image ∧
        getitem "pxscale" (h5_pxscale data) i = inr pxscale ∧
        kv.2 !! "rgb_image" = Some (VImage image) ∧
        kv.2 !! "rgb_pixel_scale" = Some (VFloat pxscale)
    else True.

(** The identifier columns of the files of a list, one after the other; a
    file that is missing or has no identifier column contributes nothing. *)
Definition enumerated_ids (fs : gmap string H5File) (paths : list string)
  : list Z :=
  mjoin ((λ file_path, default [] (fs !! file_path ≫= h5_object_id)) <$> paths).

(** ** [_info] *)

(** [datasets.Value(dtype)] and [datasets.Image()]. *)
Inductive Feature : Type :=
| FeatureValue (dtype : string)
| FeatureImage.

Record DatasetInfo : Type := {
  description : string;
  features : gmap string Feature;
  homepage : string;
  license : string;
  citation : string;
}.

Definition _HOMEPAGE : string :=
  "https://astronn.readthedocs.io/en/latest/galaxy10.html".

Definition _LICENSE : string := "MIT License".

Definition _VERSION : string := "1.0.0".

(** The line feed character. *)
Definition newline : ascii := "010"%char.

(** Whether a character occurs in a string. *)
Fixpoint contains (sep : ascii) (s : string) : bool :=
  match s with
  | EmptyString => false
  | String a s' => if decide (a = sep) then true else contains sep s'
  end.

(** [s.split(sep)] for a separator of one character: the pieces between
    the separators, empty pieces included; never the empty list. *)
Fixpoint str_split (sep : ascii) (s : string) : list string :=
  match s with
  | EmptyString => [EmptyString]
  | String a s' =>
      if decide (a = sep) then EmptyString :: str_split sep s'
      else
        match str_split sep s' with
        | piece :: pieces => String a piece :: pieces
        | [] => [String a EmptyString]
        end
  end.

(** [sep.join(pieces)]. *)
Definition str_join (sep : ascii) (pieces : list string) : string :=
  String.concat (String sep EmptyString) pieces.

Section info.
Variables _CITATION _ACKNOWLEDGEMENTS _DESCRIPTION : string.

(** Lines 91-115. *)
Definition _info (cfg : Config) : DatasetInfo :=
  let features : gmap string Feature :=
    <["object_id" := FeatureValue "string"]>
      (<["redshift" := FeatureValue "float32"]>
         (<["gz10_label" := FeatureValue "int32"]> ∅)) in
  let features : gmap string Feature :=
    if decide (name cfg = "gz10_rgb_images") then
      <["rgb_pixel_scale" := FeatureValue "float32"]>
        (<["rgb_image" := FeatureImage]> features)
    else features in
  let ACKNOWLEDGEMENTS :=
    str_join newline
      ((λ line, "% " +:+ line) <$> str_split newline _ACKNOWLEDGEMENTS) in
  {| description := _DESCRIPTION;
     features := features;
     homepage := _HOMEPAGE;
     license := _LICENSE;
     citation := ACKNOWLEDGEMENTS +:+ String newline EmptyString +:+ _CITATION |}.
End info.

(** A shard that lacks the identifier column, and a world that holds it
    beside the other two. *)
Definition headless_shard : H5File :=
  {| h5_object_id := None;
     h5_ans := Some [4];
     h5_redshift := Some [float64_of_ratio 1 10];
     h5_images := None;
     h5_pxscale := None |}.

Definition three_file_world : World :=
  {| files := <["c.h5" := headless_shard]> (files two_file_world);
     handles := [] |}.

(** * Properties *)

(** ** The error monad *)

Lemma rbind_inr {A B : Type} (m : result A) (f : A → result B) (b : B) :
  rbind m f = inr b ↔ ∃ a, m = inr a ∧ f a = inr b.
Proof.
  destruct m as [e|a]; simpl; split.
  - intros [=].
  - intros (a & [=] & _).
  - eauto.
  - intros (a' & [= ->] & H). exact H.
Qed.

(** ** Lists *)

Lemma Forall2_impl_Forall_r {A B : Type} (P R : A → B → Prop) (Q : B → Prop)
    (l : list A) (k : list B) :
  Forall2 P l k → Forall Q k → (∀ x y, P x y → Q y → R x y) → Forall2 R l k.
Proof.
  intros HP HQ Himpl. induction HP as [|x y l k Hxy _ IH]; [constructor|].
  inversion_clear HQ. constructor; auto.
Qed.

(** ** Binary search *)

Lemma StronglySorted_lookup_le (l : list Z) (i j : nat) (x y : Z) :
  StronglySorted Z.le l → (i ≤ j)%nat →
  l !! i = Some x → l !! j = Some y → x ≤ y.
Proof.
  intros Hs. revert i j. induction Hs as [|a l Hs IH Hall]; intros i j Hij Hi Hj.
  - rewrite lookup_nil in Hi. discriminate.
  - destruct i as [|i], j as [|j]; simpl in *; simplify_eq.
    + lia.
    + rewrite Forall_forall in Hall. apply Hall.
      apply list_elem_of_lookup. eauto.
    + lia.
    + apply (IH i j); [lia|done..].
Qed.

(** The invariant of the loop: everything left of [min_idx] is below the
    key, everything from [max_idx] on is not. *)
Lemma binsearch_left_spec (fuel : nat) (arr : list Z) (key : Z) :
  StronglySorted Z.le arr →
  ∀ min_idx max_idx : nat,
    (min_idx ≤ max_idx ≤ length arr)%nat →
    (max_idx - min_idx ≤ fuel)%nat →
    (∀ j v, (j < min_idx)%nat → arr !! j = Some v → v < key) →
    (∀ j v, (max_idx ≤ j)%nat → arr !! j = Some v → key ≤ v) →
    let r := binsearch_left fuel arr key min_idx max_idx in
    (min_idx ≤ r ≤ max_idx)%nat ∧
    (∀ j v, (j < r)%nat → arr !! j = Some v → v < key) ∧
    (∀ j v, (r ≤ j)%nat → arr !! j = Some v → key ≤ v).
Proof.
  intros Hs. induction fuel as [|fuel IH]; intros lo hi Hb Hf Hlo Hhi;
    cbn [binsearch_left]; cbv zeta.
  - assert (hi = lo) as -> by lia. split_and!; [lia|lia|exact Hlo|exact Hhi].
  - destruct (decide (lo < hi)%nat) as [Hlt|Hge].
    2:{ assert (hi = lo) as -> by lia. split_and!; [lia|lia|exact Hlo|exact Hhi]. }
    set (mid := (lo + (hi - lo) / 2)%nat).
    pose proof (Nat.Div0.mul_div_le (hi - lo) 2) as Hd.
    assert (lo ≤ mid < hi)%nat as Hmid by (unfold mid; lia).
    destruct (lookup_lt_is_Some_2 arr mid) as [v Hv]; [lia|].
    rewrite Hv. destruct (decide (v < key)) as [Hvk|Hvk].
    + destruct (IH (S mid) hi) as (Hr & Hl & Hu); [lia|lia| |done|].
      * intros j x Hj Hx.
        pose proof (StronglySorted_lookup_le arr j mid x v Hs ltac:(lia) Hx Hv).
        lia.
      * split_and!; [lia|lia|exact Hl|exact Hu].
    + destruct (IH lo mid) as (Hr & Hl & Hu); [lia|lia|done| |].
      * intros j x Hj Hx.
        pose proof (StronglySorted_lookup_le arr mid j v x Hs ltac:(lia) Hv Hx).
        lia.
      * split_and!; [lia|lia|exact Hl|exact Hu].
Qed.

(** [searchsorted] returns the leftmost insertion point. *)
Lemma searchsorted_spec (arr : list Z) (key : Z) :
  Sorted Z.le arr →
  (searchsorted arr key ≤ length arr)%nat ∧
  (∀ j v, (j < searchsorted arr key)%nat → arr !! j = Some v → v < key) ∧
  (∀ j v, (searchsorted arr key ≤ j)%nat → arr !! j = Some v → key ≤ v).
Proof.
  intros Hs. apply (Sorted_StronglySorted _) in Hs.
  destruct (binsearch_left_spec (length arr) arr key Hs 0 (length arr))
    as (Hr & Hl & Hu); [lia|lia| | |].
  - intros j v Hj. lia.
  - intros j v Hj Hv. apply lookup_lt_Some in Hv. lia.
  - unfold searchsorted. split_and!; [lia|exact Hl|exact Hu].
Qed.

(** A key that occurs in a sorted array is found at its first occurrence. *)
Lemma searchsorted_found (arr : list Z) (key : Z) (pos : nat) :
  Sorted Z.le arr → arr !! pos = Some key →
  arr !! searchsorted arr key = Some key ∧ (searchsorted arr key ≤ pos)%nat.
Proof.
  intros Hs Hpos. destruct (searchsorted_spec arr key Hs) as (Hr & Hl & Hu).
  assert (searchsorted arr key ≤ pos)%nat as Hle.
  { destruct (decide (searchsorted arr key ≤ pos)%nat) as [|Hn]; [done|].
    specialize (Hl pos key ltac:(lia) Hpos). lia. }
  split; [|done].
  destruct (lookup_lt_is_Some_2 arr (searchsorted arr key)) as [v Hv].
  { apply lookup_lt_Some in Hpos. lia. }
  rewrite Hv. f_equal.
  pose proof (Hu _ v (reflexivity _) Hv).
  apply (Sorted_StronglySorted _) in Hs.
  pose proof (StronglySorted_lookup_le arr _ pos v key Hs Hle Hv Hpos). lia.
Qed.

(** ** Reading a column through an index array *)

Lemma fancy_index_lookup (a : list Z) (p : list nat) (s : list Z) :
  fancy_index a p = inr s →
  length s = length p ∧
  ∀ j v, s !! j = Some v ↔ ∃ i, p !! j = Some i ∧ a !! i = Some v.
Proof.
  unfold fancy_index. destruct (mapM _ p) as [l|] eqn:Hm; [|done].
  intros [= ->]. apply mapM_Some in Hm. split.
  - symmetry. by eapply Forall2_length.
  - intros j v. split.
    + intros Hj. destruct (Forall2_lookup_r _ _ _ _ _ Hm Hj) as (i & Hi & Hv).
      eauto.
    + intros (i & Hi & Hv).
      destruct (Forall2_lookup_l _ _ _ _ _ Hm Hi) as (v' & Hv' & Hv'').
      simpl in Hv''. congruence.
Qed.

(** Every row position occurs in a sort index. *)
Lemma is_argsort_covers (a : list Z) (p : list nat) (i : nat) (v : Z) :
  is_argsort a p → a !! i = Some v → ∃ pos, p !! pos = Some i.
Proof.
  intros [Hp _] Hi. apply list_elem_of_lookup. rewrite Hp.
  apply elem_of_seq. apply lookup_lt_Some in Hi. lia.
Qed.

(** ** The insertion argsorts meet the contract of [np.argsort] *)

Section insertion_argsort_contract.
Variable before : Z → Z → bool.
Hypothesis before_le : ∀ x y, before x y = true → x ≤ y.
Hypothesis before_ge : ∀ x y, before x y = false → y ≤ x.

Lemma insert_pos_perm (a : list Z) (i : nat) (x : Z) (p : list nat) :
  insert_pos before a i x p ≡ₚ i :: p.
Proof.
  induction p as [|j p IH]; simpl; [done|].
  destruct (before x _); [done|].
  rewrite IH. apply Permutation_swap.
Qed.

Lemma argsort_from_perm (a : list Z) (i : nat) (l : list Z) :
  argsort_from before a i l ≡ₚ seq i (length l).
Proof.
  revert i. induction l as [|x l IH]; intros i; simpl; [done|].
  by rewrite insert_pos_perm, IH.
Qed.

Lemma insert_pos_sorted (a : list Z) (i : nat) (x : Z) (p : list nat) :
  a !! i = Some x →
  StronglySorted Z.le ((λ j, default 0 (a !! j)) <$> p) →
  StronglySorted Z.le
    ((λ j, default 0 (a !! j)) <$> insert_pos before a i x p).
Proof.
  intros Hi. induction p as [|j p IH]; simpl; intros Hs.
  - rewrite Hi. simpl. repeat constructor.
  - inversion_clear Hs as [|? ? Hs' Hall].
    destruct (before x _) eqn:Hb; simpl.
    + rewrite Hi. simpl. apply before_le in Hb.
      constructor; [by constructor|].
      constructor; [done|].
      eapply Forall_impl; [exact Hall|]. simpl. intros; lia.
    + apply before_ge in Hb. constructor; [by apply IH|].
      rewrite insert_pos_perm. simpl. rewrite Hi. simpl.
      by constructor.
Qed.

Lemma argsort_from_sorted (a pre l : list Z) :
  a = pre ++ l →
  StronglySorted Z.le
    ((λ j, default 0 (a !! j)) <$> argsort_from before a (length pre) l).
Proof.
  revert pre. induction l as [|x l IH]; intros pre ->; simpl.
  - constructor.
  - apply insert_pos_sorted.
    + by rewrite list_lookup_middle.
    + replace (S (length pre)) with (length (pre ++ [x]))
        by (rewrite length_app; simpl; lia).
      apply IH. by rewrite <- app_assoc.
Qed.

Lemma insertion_argsort_contract : argsort_contract (insertion_argsort before).
Proof.
  intros a. unfold is_argsort, insertion_argsort.
  pose proof (argsort_from_perm a 0 a) as Hp. split; [done|].
  exists ((λ j, default 0 (a !! j)) <$> argsort_from before a 0%nat a). split.
  - unfold fancy_index. erewrite mapM_Some_2; [done|].
    apply Forall2_fmap_r, Forall_Forall2_diag, Forall_forall.
    intros j Hj. rewrite Hp in Hj. apply elem_of_seq in Hj.
    destruct (lookup_lt_is_Some_2 a j) as [v Hv]; [lia|].
    simpl. by rewrite Hv.
  - apply StronglySorted_Sorted. by apply (argsort_from_sorted a []).
Qed.
End insertion_argsort_contract.

Lemma argsort_stable_contract : argsort_contract argsort_stable.
Proof. apply insertion_argsort_contract; intros x y; lia. Qed.

Lemma argsort_reversing_contract : argsort_contract argsort_reversing.
Proof. apply insertion_argsort_contract; intros x y; lia. Qed.

(** ** Resolving an identifier *)

Section resolve_properties.
Variable argsort : list Z → list nat.
Hypothesis argsort_ok : argsort_contract argsort.

(** The index of a column is always built, and its sorted identifiers are
    the column read through the permutation. *)
Lemma build_index_ok (a : list Z) :
  ∃ s, build_index argsort (Some a) = inr (argsort a, s) ∧
       Sorted Z.le s ∧
       length s = length a ∧
       ∀ j v, s !! j = Some v ↔ ∃ i, argsort a !! j = Some i ∧ a !! i = Some v.
Proof.
  destruct (argsort_ok a) as (Hp & s & Hs & Hsorted).
  exists s. destruct (fancy_index_lookup _ _ _ Hs) as [Hlen Hlook].
  split_and!; [|done| |done].
  - simpl. by rewrite Hs.
  - rewrite Hlen, Hp. apply length_seq.
Qed.

(** A present key resolves to the row that the permutation lists first
    among the rows holding it. *)
Lemma resolve_first_sorted (a : list Z) (k : Z) :
  k ∈ a →
  ∃ pos i, resolve argsort a k = inr i ∧
           a !! i = Some k ∧
           argsort a !! pos = Some i ∧
           ∀ pos' i', argsort a !! pos' = Some i' → a !! i' = Some k →
                      (pos ≤ pos')%nat.
Proof.
  intros Hk. apply list_elem_of_lookup in Hk as [i0 Hi0].
  destruct (build_index_ok a) as (s & Hb & Hsorted & Hlen & Hlook).
  destruct (is_argsort_covers a _ i0 k (argsort_ok a) Hi0) as [pos0 Hpos0].
  assert (s !! pos0 = Some k) as Hs0 by (apply Hlook; eauto).
  destruct (searchsorted_found s k pos0 Hsorted Hs0) as [Hfound _].
  apply Hlook in Hfound as (i & Hi & Hik).
  exists (searchsorted s k), i. split_and!; [|done|done|].
  - unfold resolve. rewrite Hb. simpl. unfold lookup_row. simpl.
    by rewrite Hi.
  - intros pos' i' Hpos' Hi'.
    assert (s !! pos' = Some k) as Hs' by (apply Hlook; eauto).
    by destruct (searchsorted_found s k pos' Hsorted Hs').
Qed.

(** C1: for every identifier column and every key [k] that occurs in it,
    building the sort index (argsort, sorted identifiers) and resolving
    [k] through it (binary search, then the permutation) returns a row
    position [i] at which the column holds [k]. *)
Theorem resolve_present (ids : list Z) (k : Z) :
  k ∈ ids → ∃ i, resolve argsort ids k = inr i ∧ ids !! i = Some k.
Proof.
  intros Hk.
  destruct (resolve_first_sorted ids k Hk) as (pos & i & Hr & Hi & _).
  eauto.
Qed.

(** C2, as the code has it: no membership test follows the binary search.
    For a 64-bit identifier column and a 64-bit key [k] that does not
    occur in it, the lookup raises [IndexError] when every identifier is
    below [k] (the insertion point is the length of the column), and
    otherwise returns, without any error, the row of the smallest
    identifier above [k]. *)
Theorem resolve_absent (ids : list Z) (k : Z) :
  Forall int64 ids → int64 k →
  k ∉ ids →
  (Forall (λ x, x < k) ids → resolve argsort ids k = inl IndexError) ∧
  (Exists (λ x, k < x) ids →
   ∃ i v, resolve argsort ids k = inr i ∧ ids !! i = Some v ∧ k < v ∧
          Forall (λ x, k < x → v ≤ x) ids).
Proof.
  intros _ _ Hk.
  destruct (build_index_ok ids) as (s & Hb & Hsorted & Hlen & Hlook).
  destruct (searchsorted_spec s k Hsorted) as (Hr & Hl & Hu).
  assert (Hres : resolve argsort ids k =
                 lookup_row (argsort ids, s) k).
  { unfold resolve. by rewrite Hb. }
  assert (Hplen : length (argsort ids) = length ids).
  { destruct (argsort_ok ids) as [Hp _]. rewrite Hp. apply length_seq. }
  split.
  - intros Hall. rewrite Hres. unfold lookup_row. simpl.
    destruct (argsort ids !! searchsorted s k) as [i|] eqn:Hi; [|done].
    exfalso.
    destruct (lookup_lt_is_Some_2 s (searchsorted s k)) as [v Hv].
    { apply lookup_lt_Some in Hi. lia. }
    pose proof (Hu _ v (reflexivity _) Hv) as Hkv.
    apply Hlook in Hv as (i' & Hi' & Hv).
    rewrite Forall_forall in Hall.
    specialize (Hall v ltac:(apply list_elem_of_lookup; eauto)). lia.
  - intros Hex. apply Exists_exists in Hex as (x & Hx & Hkx).
    apply list_elem_of_lookup in Hx as [ix Hix].
    destruct (is_argsort_covers ids _ ix x (argsort_ok ids) Hix)
      as [px Hpx].
    assert (s !! px = Some x) as Hsx by (apply Hlook; eauto).
    assert (searchsorted s k ≤ px)%nat as Hle.
    { destruct (decide (searchsorted s k ≤ px)%nat) as [|Hn]; [done|].
      specialize (Hl px x ltac:(lia) Hsx). lia. }
    destruct (lookup_lt_is_Some_2 s (searchsorted s k)) as [v Hv].
    { apply lookup_lt_Some in Hsx. lia. }
    pose proof (Hu _ v (reflexivity _) Hv) as Hkv.
    pose proof Hv as Hv'. apply Hlook in Hv' as (i & Hi & Hiv).
    exists i, v. split_and!; [|done| |].
    + rewrite Hres. unfold lookup_row. simpl. by rewrite Hi.
    + assert (v ≠ k); [|lia]. intros ->. apply Hk.
      apply list_elem_of_lookup. eauto.
    + apply Forall_forall. intros y Hy Hky.
      apply list_elem_of_lookup in Hy as [iy Hiy].
      destruct (is_argsort_covers ids _ iy y (argsort_ok ids) Hiy)
        as [py Hpy].
      assert (s !! py = Some y) as Hsy by (apply Hlook; eauto).
      assert (searchsorted s k ≤ py)%nat as Hley.
      { destruct (decide (searchsorted s k ≤ py)%nat) as [|Hn]; [done|].
        specialize (Hl py y ltac:(lia) Hsy). lia. }
      apply (Sorted_StronglySorted _) in Hsorted.
      exact (StronglySorted_lookup_le s _ py v y Hsorted Hley Hv Hsy).
Qed.

(** C3, as the code has it: when the key occurs in the column, also more
    than once, exactly one row is returned; it holds the key and it is
    the one the argsort permutation lists first among the rows holding
    the key.  Which of these rows the permutation lists first is left to
    [np.argsort].  For the column [5,1,3,1] and the key 1 the row is
    index 1 or index 3, the same on every call. *)
Theorem resolve_duplicate :
  (∀ (ids : list Z) (k : Z), k ∈ ids →
     ∃ pos i, resolve argsort ids k = inr i ∧
              ids !! i = Some k ∧
              argsort ids !! pos = Some i ∧
              ∀ pos' i', argsort ids !! pos' = Some i' →
                         ids !! i' = Some k → (pos ≤ pos')%nat) ∧
  (∃ i, resolve argsort [5; 1; 3; 1] 1 = inr i ∧ (i = 1%nat ∨ i = 3%nat)).
Proof.
  split; [exact resolve_first_sorted|].
  destruct (resolve_first_sorted [5; 1; 3; 1] 1) as (pos & i & Hr & Hi & _).
  { set_solver. }
  exists i. split; [done|].
  destruct i as [|[|[|[|i]]]]; simpl in Hi; try discriminate; auto.
Qed.
End resolve_properties.

Lemma resolve_present_witness :
  argsort_contract argsort_stable ∧ 3 ∈ [5; 1; 3; 1] ∧
  ∃ i, resolve argsort_stable [5; 1; 3; 1] 3 = inr i ∧
       [5; 1; 3; 1] !! i = Some 3.
Proof.
  split; [exact argsort_stable_contract|].
  split; [repeat constructor|].
  apply (resolve_present argsort_stable argsort_stable_contract).
  repeat constructor.
Defined.

(** ** The loop body *)

(** What a completed loop body has read and built. *)
Lemma example_for_inr (cfg : Config) (data : H5File)
    (index : list nat * list Z) (k : Z) (key : string) (ex : gmap string Value) :
  example_for cfg data index k = inr (key, ex) →
  ∃ i label z oid,
    lookup_row index k = inr i ∧
    getitem "ans" (h5_ans data) i = inr label ∧
    getitem "redshift" (h5_redshift data) i = inr z ∧
    getitem "object_id" (h5_object_id data) i = inr oid ∧
    key = str oid ∧
    let base : gmap string Value :=
      <["redshift" := VFloat32 (astype_float32 z)]>
        (<["gz10_label" := VInt32 (astype_int32 label)]> ∅) in
    if decide (name cfg = "gz10_rgb_images") then
      ∃ image pxscale,
        getitem "images" (h5_images data) i = inr image ∧
        getitem "pxscale" (h5_pxscale data) i = inr pxscale ∧
        ex = <["object_id" := VStr (str oid)]>
               (<["rgb_pixel_scale" := VFloat pxscale]>
                  (<["rgb_image" := VImage image]> base))
    else ex = <["object_id" := VStr (str oid)]> base.
Proof.
  unfold example_for. intros H.
  apply rbind_inr in H as (i & Hi & H).
  apply rbind_inr in H as (label & Hlabel & H).
  apply rbind_inr in H as (z & Hz & H).
  apply rbind_inr in H as (ex0 & Hex0 & H).
  apply rbind_inr in H as (oid & Hoid & H).
  apply rbind_inr in H as (oid' & Hoid' & H).
  rewrite Hoid in Hoid'. injection Hoid' as <-. injection H as <- <-.
  exists i, label, z, oid. split_and!; [done..|].
  cbv zeta. destruct (decide (name cfg = "gz10_rgb_images")).
  - apply rbind_inr in Hex0 as (image & Himage & Hex0).
    apply rbind_inr in Hex0 as (pxscale & Hpx & Hex0).
    injection Hex0 as <-. eauto.
  - by injection Hex0 as <-.
Qed.

(** ** The structure of a traversal *)

Section traversal.
Variable argsort : list Z → list nat.
Variable cfg : Config.

Lemma for_keys_spec (data : H5File) (index : list nat * list Z)
    (keys : list Z) :
  let r := for_keys cfg data index keys in
  Forall2 (λ kv k, example_for cfg data index k = inr kv)
          (emitted r) (take (length (emitted r)) keys) ∧
  (length (emitted r) ≤ length keys)%nat ∧
  (raised r = None → length (emitted r) = length keys).
Proof.
  induction keys as [|k keys IH]; simpl.
  - split_and!; [constructor|lia|done].
  - destruct (example_for cfg data index k) as [e|kv] eqn:Hk; simpl.
    + split_and!; [constructor|lia|done].
    + destruct IH as (IH1 & IH2 & IH3).
      split_and!; [by constructor|lia|]. intros Hr. by rewrite IH3.
Qed.

Lemma shard_body_spec (fs : gmap string H5File) (file_path : string)
    (j : nat) (data : H5File) (object_ids : option (list (list Z))) :
  fs !! file_path = Some data →
  let r := shard_body argsort cfg j data object_ids in
  let reqs := shard_requests fs object_ids j file_path in
  Forall2 (λ kv req, answer argsort cfg req = inr kv)
          (emitted r) (take (length (emitted r)) reqs) ∧
  (length (emitted r) ≤ length reqs)%nat ∧
  (raised r = None → length (emitted r) = length reqs).
Proof.
  intros Hdata. unfold shard_body, shard_requests. rewrite Hdata.
  destruct (select_keys object_ids j data) as [e|keys]; simpl.
  { split_and!; [constructor|lia|done]. }
  destruct (build_index argsort (h5_object_id data)) as [e|index] eqn:Hb;
    simpl.
  { split_and!; [constructor|lia|done]. }
  destruct (for_keys_spec data index keys) as (H1 & H2 & H3).
  rewrite length_fmap. split_and!; [|done|done].
  rewrite <- fmap_take. apply Forall2_fmap_r.
  eapply Forall2_impl; [exact H1|]. simpl. intros kv k Hk.
  unfold answer. simpl. by rewrite Hb.
Qed.

(** Opening and closing a file leaves the world as it was. *)
Lemma h5py_close_File (w w1 : World) (file_path : string) (data : H5File) :
  h5py_File w file_path = inr (data, w1) →
  files w !! file_path = Some data ∧ h5py_close w1 = w.
Proof.
  unfold h5py_File. destruct (files w !! file_path) as [d|]; [|done].
  intros [= -> <-]. split; [done|]. by destruct w.
Qed.

(** A traversal leaves no handle open and no file changed, whether it
    completes or is ended by an exception. *)
Lemma for_files_world (w : World) (j : nat) (paths : list string)
    (object_ids : option (list (list Z))) :
  (for_files argsort cfg w j paths object_ids).2 = w.
Proof.
  revert j. induction paths as [|file_path paths IH]; intros j; simpl.
  - done.
  - destruct (h5py_File w file_path) as [e|[data w1]] eqn:Hopen; [done|].
    apply h5py_close_File in Hopen as [_ ->].
    destruct (raised (shard_body _ _ _ _ _)); [done|].
    specialize (IH (S j)).
    by destruct (for_files argsort cfg w (S j) paths object_ids).
Qed.

Lemma for_files_spec (w : World) (j : nat) (paths : list string)
    (object_ids : option (list (list Z))) :
  let r := (for_files argsort cfg w j paths object_ids).1 in
  let reqs := requests_from (files w) object_ids j paths in
  Forall2 (λ kv req, answer argsort cfg req = inr kv)
          (emitted r) (take (length (emitted r)) reqs) ∧
  (raised r = None → length (emitted r) = length reqs).
Proof.
  revert j. induction paths as [|file_path paths IH]; intros j; simpl.
  - split; [constructor|done].
  - destruct (h5py_File w file_path) as [e|[data w1]] eqn:Hopen; simpl.
    { split; [constructor|done]. }
    apply h5py_close_File in Hopen as [Hdata ->].
    destruct (shard_body_spec (files w) file_path j data object_ids Hdata)
      as (H1 & H2 & H3).
    destruct (raised (shard_body _ _ _ _ _)) as [e|] eqn:Hr; simpl.
    + split; [|by rewrite Hr]. rewrite take_app_le by done. exact H1.
    + specialize (H3 eq_refl). specialize (IH (S j)).
      destruct (for_files argsort cfg w (S j) paths object_ids)
        as [r' w'] eqn:Hrec.
      simpl in *. destruct IH as [IH1 IH2].
      rewrite !length_app, H3. split.
      * rewrite take_app_add'; [|done].
        apply Forall2_app; [|done].
        rewrite H3, firstn_all in H1. exact H1.
      * intros Hr'. by rewrite IH2.
Qed.

(** Every emitted pair is the result of a completed loop body. *)
Lemma for_files_emitted (w : World) (j : nat) (paths : list string)
    (object_ids : option (list (list Z))) :
  Forall (λ kv, ∃ data index k,
                  example_for cfg data index k = inr kv)
         (emitted (for_files argsort cfg w j paths object_ids).1).
Proof.
  destruct (for_files_spec w j paths object_ids) as [H _].
  apply Forall_lookup. intros n kv Hn.
  destruct (Forall2_lookup_l _ _ _ _ _ H Hn) as ([data k] & _ & Hans).
  unfold answer in Hans.
  apply rbind_inr in Hans as (index & _ & Hex). eauto.
Qed.
End traversal.

(** ** The emitted records *)

Lemma example_for_fields (cfg : Config) (data : H5File)
    (index : list nat * list Z) (k : Z) (kv : string * gmap string Value) :
  example_for cfg data index k = inr kv →
  dom kv.2 = if decide (name cfg = "gz10_rgb_images")
             then image_fields else catalog_fields.
Proof.
  destruct kv as [key ex]. intros H.
  apply example_for_inr in H as (i & label & z & oid & _ & _ & _ & _ & _ & H).
  cbv zeta in H. simpl. unfold image_fields, catalog_fields.
  destruct (decide (name cfg = "gz10_rgb_images")).
  - destruct H as (image & pxscale & _ & _ & ->).
    rewrite !dom_insert_L, dom_empty_L. set_solver.
  - subst ex. rewrite !dom_insert_L, dom_empty_L. set_solver.
Qed.

Lemma example_for_object_id (cfg : Config) (data : H5File)
    (index : list nat * list Z) (k : Z) (kv : string * gmap string Value) :
  example_for cfg data index k = inr kv →
  kv.2 !! "object_id" = Some (VStr kv.1).
Proof.
  destruct kv as [key ex]. intros H.
  apply example_for_inr in H as (i & label & z & oid & _ & _ & _ & _ & -> & H).
  cbv zeta in H. simpl.
  destruct (decide (name cfg = "gz10_rgb_images")).
  - destruct H as (image & pxscale & _ & _ & ->). apply lookup_insert_eq.
  - subst ex. apply lookup_insert_eq.
Qed.

(** C4: every record a traversal emits has exactly the fields of the active
    variant: [gz10_label], [redshift], [object_id], [rgb_image] and
    [rgb_pixel_scale] under [gz10_rgb_images]; [gz10_label], [redshift] and
    [object_id] under [gz10]. *)
Theorem record_fields_exact (argsort : list Z → list nat)
    (df : option (list (string * Files))) (w : World) (paths : list string)
    (object_ids : option (list (list Z))) :
  Forall (λ kv, dom kv.2 = image_fields)
    (emitted (_generate_examples argsort
                {| name := "gz10_rgb_images"; data_files := df |}
                w paths object_ids).1) ∧
  Forall (λ kv, dom kv.2 = catalog_fields)
    (emitted (_generate_examples argsort
                {| name := "gz10"; data_files := df |}
                w paths object_ids).1).
Proof.
  split; (eapply Forall_impl; [apply for_files_emitted|]);
    intros kv (data & index & k & H);
    apply example_for_fields in H; exact H.
Qed.


(** C8: the pairs come out in the order of the requests: shard after shard
    in the order of the file list and, within a shard, key after key in the
    order of its key set.  The n-th emitted pair is the answer to the n-th
    request; nothing is reordered, merged or dropped, and a traversal that
    ends without an exception has answered every request. *)
Theorem emission_order (argsort : list Z → list nat) (cfg : Config)
    (w : World) (paths : list string) (object_ids : option (list (list Z))) :
  let r := (_generate_examples argsort cfg w paths object_ids).1 in
  let reqs := requests (files w) object_ids paths in
  Forall2 (λ kv req, answer argsort cfg req = inr kv)
          (emitted r) (take (length (emitted r)) reqs) ∧
  (raised r = None → length (emitted r) = length reqs).
Proof. apply for_files_spec. Qed.

(** C6: a traversal run a second time, on the world the first run left,
    yields the same pairs and ends the same way; the world is left as it
    was found. *)
Theorem traversal_repeatable (argsort : list Z → list nat) (cfg : Config)
    (w : World) (paths : list string) (object_ids : option (list (list Z))) :
  let first := _generate_examples argsort cfg w paths object_ids in
  let second := _generate_examples argsort cfg first.2 paths object_ids in
  second.1 = first.1 ∧ first.2 = w ∧ second.2 = w.
Proof.
  cbv zeta. unfold _generate_examples.
  by rewrite !for_files_world.
Qed.

(** C7: with no data files configured ([None] or an empty dictionary),
    [_split_generators] raises [ValueError] at once, and the build it
    starts emits no record and touches no file. *)
Theorem no_data_files_is_fatal (argsort : list Z → list nat) (n : string)
    (w : World) :
  _split_generators {| name := n; data_files := None |}
    = inl (no_data_files "None") ∧
  _split_generators {| name := n; data_files := Some [] |}
    = inl (no_data_files "{}") ∧
  download_and_prepare argsort {| name := n; data_files := None |} w
    = ({| emitted := []; raised := Some (no_data_files "None") |}, w) ∧
  download_and_prepare argsort {| name := n; data_files := Some [] |} w
    = ({| emitted := []; raised := Some (no_data_files "{}") |}, w).
Proof. done. Qed.

(** ** Requests whose key is present *)

Section present_requests.
Variable argsort : list Z → list nat.
Hypothesis argsort_ok : argsort_contract argsort.

(** Through a built index, a present key is looked up at a row holding
    it. *)
Lemma lookup_row_present (ids : list Z) (index : list nat * list Z) (k : Z) :
  build_index argsort (Some ids) = inr index → k ∈ ids →
  ∃ i, lookup_row index k = inr i ∧ ids !! i = Some k.
Proof.
  intros Hb Hk.
  destruct (resolve_first_sorted argsort argsort_ok ids k Hk)
    as (_ & i & Hr & Hi & _).
  unfold resolve in Hr. rewrite Hb in Hr. simpl in Hr. eauto.
Qed.

Lemma answer_present (cfg : Config) (req : H5File * Z)
    (kv : string * gmap string Value) :
  answer argsort cfg req = inr kv → key_present req →
  kv.2 !! "object_id" = Some (VStr (str req.2)).
Proof.
  destruct req as [data k], kv as [key ex].
  intros Hans (ids & Hids & Hk). simpl in *.
  unfold answer in Hans. simpl in Hans. rewrite Hids in Hans.
  apply rbind_inr in Hans as (index & Hb & Hex).
  pose proof (example_for_object_id _ _ _ _ _ Hex) as Hfield.
  apply example_for_inr in Hex
    as (i & label & z & oid & Hi & _ & _ & Hoid & -> & _).
  destruct (lookup_row_present ids index k Hb Hk) as (i' & Hi' & Hik).
  rewrite Hi in Hi'. injection Hi' as <-.
  unfold getitem in Hoid. rewrite Hids, Hik in Hoid. injection Hoid as <-.
  exact Hfield.
Qed.
End present_requests.

(** When the identifier column is the key set, every request is for a key
    of its shard. *)
Lemma requests_from_enumerated (fs : gmap string H5File) (j : nat)
    (paths : list string) :
  Forall key_present (requests_from fs None j paths).
Proof.
  revert j. induction paths as [|file_path paths IH]; intros j; simpl.
  - constructor.
  - apply Forall_app. split; [|apply IH].
    unfold shard_requests. destruct (fs !! file_path) as [data|]; [|constructor].
    simpl. destruct (h5_object_id data) as [ids|] eqn:Hids; [|constructor].
    apply Forall_fmap, Forall_forall. intros k Hk. exists ids. done.
Qed.

(** C9, as the code has it: the [object_id] field of an emitted record is
    the string of the identifier it was requested by whenever that
    identifier occurs in the identifier column of the shard; this is always
    so when the identifier column itself is the key set. *)
Theorem object_id_round_trip (argsort : list Z → list nat) (cfg : Config)
    (w : World) (paths : list string) (object_ids : option (list (list Z))) :
  argsort_contract argsort →
  let r := (_generate_examples argsort cfg w paths object_ids).1 in
  let reqs := requests (files w) object_ids paths in
  Forall2 (λ kv req, key_present req →
                     kv.2 !! "object_id" = Some (VStr (str req.2)))
          (emitted r) (take (length (emitted r)) reqs) ∧
  (object_ids = None →
   Forall2 (λ kv req, kv.2 !! "object_id" = Some (VStr (str req.2)))
           (emitted r) (take (length (emitted r)) reqs)).
Proof.
  intros Hargsort r reqs.
  destruct (for_files_spec argsort cfg w 0 paths object_ids) as [Hspec _].
  fold r in Hspec. change (requests_from (files w) object_ids 0 paths)
    with reqs in Hspec.
  split.
  - eapply Forall2_impl; [exact Hspec|]. simpl. intros kv req Hans Hreq.
    by eapply answer_present.
  - intros ->.
    assert (Forall key_present (take (length (emitted r)) reqs)) as Hall.
    { apply Forall_take, requests_from_enumerated. }
    eapply Forall2_impl_Forall_r; [exact Hspec|exact Hall|].
    simpl. intros kv req Hans Hreq. by eapply answer_present.
Qed.

(** ** The end-to-end scenario *)

(** In the scenario catalogue the identifier 20 is looked up at row 1,
    whatever permutation [np.argsort] returns. *)
Lemma scenario_lookup (argsort : list Z → list nat)
    (images : option (list ndarray_uint8)) (pxscale : option (list spec_float))
    (cfg : Config) (file_path : string) :
  argsort_contract argsort →
  ∃ index,
    (_generate_examples argsort cfg
       (single_file_world file_path (scenario_shard images pxscale))
       [file_path] (Some [[20]])).1
    = for_keys cfg (scenario_shard images pxscale) index [20] ∧
    lookup_row index 20 = inr 1%nat.
Proof.
  intros Hargsort.
  destruct (build_index_ok argsort Hargsort [10; 20; 30])
    as (s & Hb & _).
  exists (argsort [10; 20; 30], s). split.
  - unfold _generate_examples, for_files, h5py_File, single_file_world.
    cbn [files handles]. rewrite lookup_singleton_eq.
    unfold shard_body, select_keys. cbn [lookup list_lookup rbind].
    cbn [scenario_shard h5_object_id]. rewrite Hb. cbn [rbind].
    generalize (for_keys cfg (scenario_shard images pxscale)
                  (argsort [10; 20; 30], s) [20]).
    intros [em [e|]]; simpl; by rewrite ?app_nil_r.
  - destruct (lookup_row_present argsort Hargsort [10; 20; 30] _ 20 Hb)
      as (i & Hi & Hik); [set_solver|].
    rewrite Hi. f_equal.
    destruct i as [|[|[|[|i]]]]; simpl in Hik; try discriminate; done.
Qed.

(** C5: in the catalogue with identifiers [10,20,30], labels [2,5,9] and
    redshifts [0.1,0.2,0.3], requesting identifier 20 yields one pair, with
    key "20" and a record holding label 5, the binary32 number nearest to
    0.2 as redshift (within 1e-8 of 0.2) and object id "20"; under
    [gz10_rgb_images] the record also holds the image and the pixel scale
    of row 1. *)
Theorem scenario_request_20 (argsort : list Z → list nat)
    (file_path : string) (df : option (list (string * Files)))
    (images : option (list ndarray_uint8)) (pxscale : option (list spec_float))
    (i0 i1 i2 : ndarray_uint8) (p0 p1 p2 : spec_float) :
  argsort_contract argsort →
  (_generate_examples argsort {| name := "gz10"; data_files := df |}
     (single_file_world file_path (scenario_shard images pxscale))
     [file_path] (Some [[20]])).1
  = {| emitted :=
         [("20", <["object_id" := VStr "20"]>
                   (<["redshift" := VFloat32 float32_0_2]>
                      (<["gz10_label" := VInt32 5]> ∅)))];
       raised := None |} ∧
  (_generate_examples argsort {| name := "gz10_rgb_images"; data_files := df |}
     (single_file_world file_path
        (scenario_shard (Some [i0; i1; i2]) (Some [p0; p1; p2])))
     [file_path] (Some [[20]])).1
  = {| emitted :=
         [("20", <["object_id" := VStr "20"]>
                   (<["rgb_pixel_scale" := VFloat p1]>
                      (<["rgb_image" := VImage i1]>
                         (<["redshift" := VFloat32 float32_0_2]>
                            (<["gz10_label" := VInt32 5]> ∅)))))];
       raised := None |} ∧
  (Qabs (SF2Q float32_0_2 - (2 # 10)) < (1 # 100000000))%Q.
Proof.
  intros Hargsort. split_and!.
  - destruct (scenario_lookup argsort images pxscale
                {| name := "gz10"; data_files := df |} file_path Hargsort)
      as (index & -> & Hrow).
    unfold for_keys, example_for. rewrite Hrow. reflexivity.
  - destruct (scenario_lookup argsort (Some [i0; i1; i2]) (Some [p0; p1; p2])
                {| name := "gz10_rgb_images"; data_files := df |}
                file_path Hargsort)
      as (index & -> & Hrow).
    unfold for_keys, example_for. rewrite Hrow. reflexivity.
  - reflexivity.
Qed.

(** ** Instances on concrete catalogues *)

Lemma resolve_absent_witness :
  argsort_contract argsort_stable ∧
  Forall int64 [10; 20; 30] ∧ int64 35 ∧ int64 15 ∧
  ((35 ∉ [10; 20; 30]) ∧ Forall (λ x, x < 35) [10; 20; 30] ∧
   resolve argsort_stable [10; 20; 30] 35 = inl IndexError) ∧
  ((15 ∉ [10; 20; 30]) ∧ Exists (λ x, 15 < x) [10; 20; 30] ∧
   ∃ i v, resolve argsort_stable [10; 20; 30] 15 = inr i ∧
          [10; 20; 30] !! i = Some v ∧ 15 < v ∧
          Forall (λ x, 15 < x → v ≤ x) [10; 20; 30]).
Proof.
  assert (H35 : 35 ∉ [10; 20; 30]) by (apply (bool_decide_unpack _); exact I).
  assert (H15 : 15 ∉ [10; 20; 30]) by (apply (bool_decide_unpack _); exact I).
  assert (Hbelow : Forall (λ x, x < 35) [10; 20; 30])
    by (repeat constructor).
  assert (Habove : Exists (λ x, 15 < x) [10; 20; 30])
    by (apply Exists_cons_tl, Exists_cons_hd; reflexivity).
  assert (Hids : Forall int64 [10; 20; 30])
    by (apply (bool_decide_unpack _); exact I).
  assert (Hk35 : int64 35) by (apply (bool_decide_unpack _); exact I).
  assert (Hk15 : int64 15) by (apply (bool_decide_unpack _); exact I).
  split; [exact argsort_stable_contract|].
  split; [exact Hids|]. split; [exact Hk35|]. split; [exact Hk15|]. split.
  - split; [exact H35|]. split; [exact Hbelow|].
    exact (proj1 (resolve_absent argsort_stable argsort_stable_contract
                    [10; 20; 30] 35 Hids Hk35 H35) Hbelow).
  - split; [exact H15|]. split; [exact Habove|].
    exact (proj2 (resolve_absent argsort_stable argsort_stable_contract
                    [10; 20; 30] 15 Hids Hk15 H15) Habove).
Defined.

(** Against C2 as stated: 15 does not occur in the column [10,20,30], yet
    resolving it raises nothing and returns row 1, which holds 20. *)
Lemma absent_key_resolves_silently :
  (15 ∉ [10; 20; 30]) ∧
  resolve argsort_stable [10; 20; 30] 15 = inr 1%nat ∧
  [10; 20; 30] !! 1%nat = Some 20.
Proof.
  split; [apply (bool_decide_unpack _); exact I|]. split; reflexivity.
Qed.

Lemma resolve_duplicate_witness :
  argsort_contract argsort_stable ∧
  (∀ (ids : list Z) (k : Z), k ∈ ids →
     ∃ pos i, resolve argsort_stable ids k = inr i ∧
              ids !! i = Some k ∧
              argsort_stable ids !! pos = Some i ∧
              ∀ pos' i', argsort_stable ids !! pos' = Some i' →
                         ids !! i' = Some k → (pos ≤ pos')%nat) ∧
  (∃ i, resolve argsort_stable [5; 1; 3; 1] 1 = inr i ∧
        (i = 1%nat ∨ i = 3%nat)).
Proof.
  split; [exact argsort_stable_contract|].
  exact (resolve_duplicate argsort_stable argsort_stable_contract).
Defined.

(** Against C3 as stated: on the column [3,2,2,1,1,0,0,0] the network
    NumPy runs returns the permutation [6,7,5,3,4,1,2,0], which sorts the
    column, and through it the key 0 resolves to row 6, although row 5
    holds the key too and comes first in the original order: the tie-break
    is not stable.  (On the column [5,1,3,1] of the claim the same network
    returns [1,3,2,0] and the key 1 resolves to row 1.) *)
Lemma duplicate_key_resolves_unstably :
  argsort_avx512 [3; 2; 2; 1; 1; 0; 0; 0]
    = [6; 7; 5; 3; 4; 1; 2; 0]%nat ∧
  is_argsort [3; 2; 2; 1; 1; 0; 0; 0]
    (argsort_avx512 [3; 2; 2; 1; 1; 0; 0; 0]) ∧
  resolve argsort_avx512 [3; 2; 2; 1; 1; 0; 0; 0] 0 = inr 6%nat ∧
  [3; 2; 2; 1; 1; 0; 0; 0] !! 5%nat = Some 0 ∧
  (5 < 6)%nat ∧
  argsort_avx512 [5; 1; 3; 1] = [1; 3; 2; 0]%nat ∧
  resolve argsort_avx512 [5; 1; 3; 1] 1 = inr 1%nat.
Proof.
  split; [reflexivity|]. split.
  { split.
    - apply (bool_decide_unpack _). exact I.
    - exists [0; 0; 0; 1; 1; 2; 2; 3]. split; [reflexivity|].
      repeat constructor; lia. }
  split; [reflexivity|]. split; [reflexivity|]. split; [lia|].
  split; reflexivity.
Qed.

Lemma scenario_request_20_witness :
  argsort_contract argsort_stable ∧
  (_generate_examples argsort_stable (builder_config "gz10")
     (single_file_world "a.h5" (scenario_shard None None))
     ["a.h5"] (Some [[20]])).1
  = {| emitted :=
         [("20", <["object_id" := VStr "20"]>
                   (<["redshift" := VFloat32 float32_0_2]>
                      (<["gz10_label" := VInt32 5]> ∅)))];
       raised := None |}.
Proof.
  split; [exact argsort_stable_contract|].
  exact (proj1 (scenario_request_20 argsort_stable "a.h5" _ None None
                  [] [] [] float32_0_2 float32_0_2 float32_0_2
                  argsort_stable_contract)).
Defined.

Lemma emission_order_witness :
  (emitted (_generate_examples argsort_stable (builder_config "gz10")
              two_file_world ["a.h5"; "b.h5"]
              (Some [[30; 10; 30]; [10]])).1).*1
  = ["30"; "10"; "30"; "10"] ∧
  let r := (_generate_examples argsort_stable (builder_config "gz10")
              two_file_world ["a.h5"; "b.h5"]
              (Some [[30; 10; 30]; [10]])).1 in
  let reqs := requests (files two_file_world) (Some [[30; 10; 30]; [10]])
                ["a.h5"; "b.h5"] in
  Forall2 (λ kv req, answer argsort_stable (builder_config "gz10") req = inr kv)
          (emitted r) (take (length (emitted r)) reqs) ∧
  (raised r = None → length (emitted r) = length reqs).
Proof.
  split; [reflexivity|].
  exact (emission_order argsort_stable (builder_config "gz10") two_file_world
           ["a.h5"; "b.h5"] (Some [[30; 10; 30]; [10]])).
Defined.

Lemma object_id_round_trip_witness :
  argsort_contract argsort_stable ∧
  let r := (_generate_examples argsort_stable (builder_config "gz10")
              two_file_world ["a.h5"; "b.h5"] None).1 in
  let reqs := requests (files two_file_world) None ["a.h5"; "b.h5"] in
  None = @None (list (list Z)) ∧
  Forall2 (λ kv req, kv.2 !! "object_id" = Some (VStr (str req.2)))
          (emitted r) (take (length (emitted r)) reqs).
Proof.
  split; [exact argsort_stable_contract|]. split; [reflexivity|].
  exact (proj2 (object_id_round_trip argsort_stable (builder_config "gz10")
                  two_file_world ["a.h5"; "b.h5"] None
                  argsort_stable_contract) eq_refl).
Defined.

(** Against C9 as stated: the single request is for identifier 15, which the
    column [10,20,30] does not hold; a record is emitted all the same, and
    its [object_id] is "20". *)
Lemma absent_request_yields_other_id :
  requests (files (single_file_world "a.h5" (scenario_shard None None)))
    (Some [[15]]) ["a.h5"]
  = [(scenario_shard None None, 15)] ∧
  (λ kv, kv.2 !! "object_id") <$>
    emitted (_generate_examples argsort_stable (builder_config "gz10")
               (single_file_world "a.h5" (scenario_shard None None))
               ["a.h5"] (Some [[15]])).1
  = [Some (VStr "20")] ∧
  str 15 = "15" ∧
  VStr (str 15) ≠ VStr "20".
Proof.
  split; [reflexivity|]. split; [reflexivity|]. split; [reflexivity|].
  discriminate.
Qed.

(** * Further properties of the lookup *)

(** ** The insertion point counts the smaller identifiers *)

Lemma filter_Forall_all {A : Type} (P : A → Prop) `{!∀ x, Decision (P x)}
    (l : list A) :
  Forall P l → filter P l = l.
Proof.
  induction 1 as [|x l Hx _ IH]; [done|].
  rewrite filter_cons_True by done. by rewrite IH.
Qed.

Lemma filter_Forall_none {A : Type} (P : A → Prop) `{!∀ x, Decision (P x)}
    (l : list A) :
  Forall (λ x, ¬ P x) l → filter P l = [].
Proof.
  induction 1 as [|x l Hx _ IH]; [done|].
  by rewrite filter_cons_False by done.
Qed.

(** X1: In a sorted array of 64-bit identifiers, [np.searchsorted]
    returns, for a 64-bit key, the number of elements that are smaller
    than the key. *)
Theorem searchsorted_counts_smaller (arr : list Z) (key : Z) :
  Forall int64 arr → int64 key →
  Sorted Z.le arr →
  searchsorted arr key = length (filter (λ v, v < key) arr).
Proof.
  intros _ _ Hs. destruct (searchsorted_spec arr key Hs) as (Hr & Hl & Hu).
  set (r := searchsorted arr key) in *.
  rewrite <- (take_drop r arr) at 1. rewrite filter_app, length_app.
  assert (Forall (λ v, v < key) (take r arr)) as Hbelow.
  { apply Forall_lookup. intros j v Hj.
    apply lookup_take_Some in Hj as [Hj Hlt]. by apply (Hl j). }
  assert (Forall (λ v, ¬ v < key) (drop r arr)) as Hnot.
  { apply Forall_lookup. intros j v Hj. rewrite lookup_drop in Hj.
    specialize (Hu (r + j)%nat v ltac:(lia) Hj). lia. }
  rewrite (filter_Forall_all _ _ Hbelow), (filter_Forall_none _ _ Hnot).
  rewrite length_take. simpl. lia.
Qed.

Lemma searchsorted_counts_smaller_witness :
  Forall int64 [1; 1; 3; 5] ∧ int64 3 ∧
  Sorted Z.le [1; 1; 3; 5] ∧
  searchsorted [1; 1; 3; 5] 3 = length (filter (λ v, v < 3) [1; 1; 3; 5]).
Proof.
  assert (Hs : Sorted Z.le [1; 1; 3; 5]) by (repeat constructor; lia).
  assert (Harr : Forall int64 [1; 1; 3; 5])
    by (apply (bool_decide_unpack _); exact I).
  assert (Hkey : int64 3) by (apply (bool_decide_unpack _); exact I).
  split; [exact Harr|]. split; [exact Hkey|]. split; [exact Hs|].
  exact (searchsorted_counts_smaller [1; 1; 3; 5] 3 Harr Hkey Hs).
Defined.

(** ** The index depends on the column only *)

Lemma fancy_index_through_permutation (a : list Z) (p : list nat) (s : list Z) :
  p ≡ₚ seq 0 (length a) → fancy_index a p = inr s → s ≡ₚ a.
Proof.
  intros Hp Hs. unfold fancy_index in Hs.
  destruct (mapM _ p) as [l|] eqn:Hm; [|done]. injection Hs as ->.
  assert (s = (λ i, default 0 (a !! i)) <$> p) as ->.
  { apply mapM_Some in Hm. clear Hp. induction Hm as [|i v p s Hi _ IH].
    - done.
    - simpl. rewrite Hi. simpl. by f_equal. }
  rewrite Hp. clear. induction a as [|x a IH] using rev_ind; [done|].
  rewrite length_app. simpl. rewrite Nat.add_1_r, seq_S, fmap_app. simpl.
  rewrite list_lookup_middle by done. simpl.
  apply Permutation_app; [|done].
  erewrite list_fmap_ext; [exact IH|].
  intros j i Hj. apply lookup_seq in Hj as [-> Hlt]. simpl.
  by rewrite lookup_app_l by done.
Qed.

Section index_of_column.
Variables argsort argsort' : list Z → list nat.
Hypothesis argsort_ok : argsort_contract argsort.
Hypothesis argsort'_ok : argsort_contract argsort'.

(** Two sort functions that meet the contract read the same sorted
    identifiers. *)
Lemma build_index_sorted_ids (ids : list Z) :
  ∃ s, build_index argsort (Some ids) = inr (argsort ids, s) ∧
       build_index argsort' (Some ids) = inr (argsort' ids, s) ∧
       s ≡ₚ ids ∧ Sorted Z.le s.
Proof.
  destruct (argsort_ok ids) as (Hp & s & Hs & Hsorted).
  destruct (argsort'_ok ids) as (Hp' & s' & Hs' & Hsorted').
  pose proof (fancy_index_through_permutation _ _ _ Hp Hs) as Hperm.
  pose proof (fancy_index_through_permutation _ _ _ Hp' Hs') as Hperm'.
  assert (s' = s) as ->.
  { apply (Sorted_unique Z.le); [done..|]. by rewrite Hperm, Hperm'. }
  exists s. simpl. by rewrite Hs, Hs'.
Qed.

(** Whatever the order in which equal identifiers are sorted, a lookup
    fails for both sort functions or lands on rows holding the same
    identifier. *)
Lemma resolve_same_identifier (ids : list Z) (k : Z) :
  match resolve argsort ids k, resolve argsort' ids k with
  | inr i, inr i' => ∃ v, ids !! i = Some v ∧ ids !! i' = Some v
  | inl e, inl e' => e = e'
  | _, _ => False
  end.
Proof.
  destruct (build_index_sorted_ids ids) as (s & Hb & Hb' & _ & _).
  unfold resolve. rewrite Hb, Hb'. simpl. unfold lookup_row. simpl.
  destruct (argsort_ok ids) as (Hp & s1 & Hs1 & _).
  destruct (argsort'_ok ids) as (Hp' & s2 & Hs2 & _).
  assert (s1 = s) as ->.
  { simpl in Hb. rewrite Hs1 in Hb. simpl in Hb. congruence. }
  assert (s2 = s) as ->.
  { simpl in Hb'. rewrite Hs2 in Hb'. simpl in Hb'. congruence. }
  destruct (fancy_index_lookup _ _ _ Hs1) as [Hlen Hlook].
  destruct (fancy_index_lookup _ _ _ Hs2) as [Hlen' Hlook'].
  destruct (argsort ids !! searchsorted s k) as [i|] eqn:Hi;
    destruct (argsort' ids !! searchsorted s k) as [i'|] eqn:Hi'.
  - destruct (lookup_lt_is_Some_2 s (searchsorted s k)) as [v Hv].
    { apply lookup_lt_Some in Hi. lia. }
    exists v. split.
    + apply Hlook in Hv as (j & Hj & Hjv). congruence.
    + apply Hlook' in Hv as (j & Hj & Hjv). congruence.
  - apply lookup_lt_Some in Hi. apply lookup_ge_None in Hi'. lia.
  - apply lookup_lt_Some in Hi'. apply lookup_ge_None in Hi. lia.
  - done.
Qed.
End index_of_column.

(** X3: A resolved row is a row of the identifier column: reading the
    identifier column at it cannot fail. *)
Theorem resolve_row_in_range (argsort : list Z → list nat) (ids : list Z)
    (k : Z) (i : nat) :
  argsort_contract argsort →
  resolve argsort ids k = inr i → (i < length ids)%nat.
Proof.
  intros Hargsort Hr.
  destruct (build_index_ok argsort Hargsort ids) as (s & Hb & _).
  unfold resolve in Hr. rewrite Hb in Hr. simpl in Hr.
  unfold lookup_row in Hr. simpl in Hr.
  destruct (argsort ids !! searchsorted s k) as [i'|] eqn:Hi; [|done].
  injection Hr as ->. destruct (Hargsort ids) as [Hp _].
  assert (i ∈ seq 0 (length ids)) as Hin.
  { rewrite <- Hp. apply list_elem_of_lookup. eauto. }
  apply elem_of_seq in Hin. lia.
Qed.

Lemma resolve_row_in_range_witness :
  argsort_contract argsort_stable ∧
  resolve argsort_stable [10; 20; 30] 25 = inr 2%nat ∧
  (2 < length [10; 20; 30])%nat.
Proof.
  split; [exact argsort_stable_contract|]. split; [reflexivity|].
  exact (resolve_row_in_range argsort_stable [10; 20; 30] 25 2
           argsort_stable_contract eq_refl).
Defined.

(** X4: The sorted identifiers of the index are the identifier column in
    ascending order, the same for every sort function that meets the
    contract of [np.argsort]. *)
Theorem sorted_ids_determined (argsort argsort' : list Z → list nat)
    (ids : list Z) :
  argsort_contract argsort → argsort_contract argsort' →
  ∃ sorted_ids,
    build_index argsort (Some ids) = inr (argsort ids, sorted_ids) ∧
    build_index argsort' (Some ids) = inr (argsort' ids, sorted_ids) ∧
    sorted_ids ≡ₚ ids ∧ Sorted Z.le sorted_ids.
Proof. intros H H'. by apply build_index_sorted_ids. Qed.

Lemma sorted_ids_determined_witness :
  argsort_contract argsort_stable ∧ argsort_contract argsort_reversing ∧
  ∃ sorted_ids,
    build_index argsort_stable (Some [5; 1; 3; 1])
      = inr (argsort_stable [5; 1; 3; 1], sorted_ids) ∧
    build_index argsort_reversing (Some [5; 1; 3; 1])
      = inr (argsort_reversing [5; 1; 3; 1], sorted_ids) ∧
    sorted_ids ≡ₚ [5; 1; 3; 1] ∧ Sorted Z.le sorted_ids.
Proof.
  split; [exact argsort_stable_contract|].
  split; [exact argsort_reversing_contract|].
  exact (sorted_ids_determined argsort_stable argsort_reversing [5; 1; 3; 1]
           argsort_stable_contract argsort_reversing_contract).
Defined.

(** X5: The order in which [np.argsort] puts equal identifiers does not change
    which identifier a lookup lands on: for two sort functions that meet
    the contract, a lookup raises the same exception under both or returns
    rows that hold the same identifier. *)
Theorem resolve_identifier_tie_independent
    (argsort argsort' : list Z → list nat) (ids : list Z) (k : Z) :
  argsort_contract argsort → argsort_contract argsort' →
  match resolve argsort ids k, resolve argsort' ids k with
  | inr i, inr i' => ∃ v, ids !! i = Some v ∧ ids !! i' = Some v
  | inl e, inl e' => e = e'
  | _, _ => False
  end.
Proof. intros H H'. by apply resolve_same_identifier. Qed.

Lemma resolve_identifier_tie_independent_witness :
  argsort_contract argsort_stable ∧ argsort_contract argsort_reversing ∧
  resolve argsort_stable [5; 1; 3; 1] 1 = inr 1%nat ∧
  resolve argsort_reversing [5; 1; 3; 1] 1 = inr 3%nat ∧
  match resolve argsort_stable [5; 1; 3; 1] 1,
        resolve argsort_reversing [5; 1; 3; 1] 1 with
  | inr i, inr i' => ∃ v, [5; 1; 3; 1] !! i = Some v ∧
                          [5; 1; 3; 1] !! i' = Some v
  | inl e, inl e' => e = e'
  | _, _ => False
  end.
Proof.
  split; [exact argsort_stable_contract|].
  split; [exact argsort_reversing_contract|].
  split; [reflexivity|]. split; [reflexivity|].
  exact (resolve_identifier_tie_independent argsort_stable argsort_reversing
           [5; 1; 3; 1] 1 argsort_stable_contract argsort_reversing_contract).
Defined.

(** ** Shards with pairwise distinct identifiers *)

Section distinct_identifiers.
Variables argsort argsort' : list Z → list nat.
Hypothesis argsort_ok : argsort_contract argsort.
Hypothesis argsort'_ok : argsort_contract argsort'.

Lemma resolve_NoDup (ids : list Z) (k : Z) :
  NoDup ids → resolve argsort ids k = resolve argsort' ids k.
Proof.
  intros Hnd.
  pose proof (resolve_same_identifier argsort argsort' argsort_ok argsort'_ok
                ids k) as H.
  destruct (resolve argsort ids k) as [e|i], (resolve argsort' ids k) as [e'|i'];
    try done.
  - by subst.
  - destruct H as (v & Hi & Hi'). f_equal. by eapply NoDup_lookup.
Qed.

Lemma for_keys_ext (cfg : Config) (data : H5File)
    (index index' : list nat * list Z) (keys : list Z) :
  (∀ k, lookup_row index k = lookup_row index' k) →
  for_keys cfg data index keys = for_keys cfg data index' keys.
Proof.
  intros Hrow. induction keys as [|k keys IH]; simpl; [done|].
  unfold example_for. rewrite (Hrow k), IH. done.
Qed.

Lemma shard_body_NoDup (cfg : Config) (j : nat) (data : H5File)
    (object_ids : option (list (list Z))) :
  unique_ids data →
  shard_body argsort cfg j data object_ids
  = shard_body argsort' cfg j data object_ids.
Proof.
  unfold unique_ids, shard_body. intros Hnd.
  destruct (select_keys object_ids j data) as [e|keys]; [done|]. simpl.
  destruct (h5_object_id data) as [ids|] eqn:Hids; [|done].
  destruct (build_index_sorted_ids argsort argsort' argsort_ok argsort'_ok ids)
    as (s & Hb & Hb' & _).
  rewrite Hb, Hb'. simpl. apply for_keys_ext. intros k.
  pose proof (resolve_NoDup ids k Hnd) as Hr.
  unfold resolve in Hr. by rewrite Hb, Hb' in Hr.
Qed.

Lemma for_files_NoDup (cfg : Config) (w : World) (j : nat)
    (paths : list string) (object_ids : option (list (list Z))) :
  map_Forall (λ _, unique_ids) (files w) →
  for_files argsort cfg w j paths object_ids
  = for_files argsort' cfg w j paths object_ids.
Proof.
  intros Hnd. revert j.
  induction paths as [|file_path paths IH]; intros j; simpl; [done|].
  destruct (h5py_File w file_path) as [e|[data w1]] eqn:Hopen; [done|].
  apply h5py_close_File in Hopen as [Hdata ->].
  rewrite (shard_body_NoDup cfg j data object_ids (Hnd _ _ Hdata)).
  by rewrite IH.
Qed.
End distinct_identifiers.

(** X6: When the identifiers of a shard are pairwise distinct, a lookup does
    not depend on the sort function at all. *)
Theorem resolve_distinct_ids (argsort argsort' : list Z → list nat)
    (ids : list Z) (k : Z) :
  argsort_contract argsort → argsort_contract argsort' → NoDup ids →
  resolve argsort ids k = resolve argsort' ids k.
Proof. intros H H'. by apply resolve_NoDup. Qed.

Lemma resolve_distinct_ids_witness :
  argsort_contract argsort_stable ∧ argsort_contract argsort_reversing ∧
  NoDup [30; 10; 20] ∧
  resolve argsort_stable [30; 10; 20] 20
  = resolve argsort_reversing [30; 10; 20] 20.
Proof.
  assert (Hnd : NoDup [30; 10; 20]) by (apply (bool_decide_unpack _); exact I).
  split; [exact argsort_stable_contract|].
  split; [exact argsort_reversing_contract|]. split; [exact Hnd|].
  exact (resolve_distinct_ids argsort_stable argsort_reversing [30; 10; 20] 20
           argsort_stable_contract argsort_reversing_contract Hnd).
Defined.

(** X7: When every shard has pairwise distinct identifiers, the whole
    traversal (the emitted pairs, the exception that ends it, the world it
    leaves) is the same for every sort function that meets the contract of
    [np.argsort]. *)
Theorem traversal_distinct_ids (argsort argsort' : list Z → list nat)
    (cfg : Config) (w : World) (paths : list string)
    (object_ids : option (list (list Z))) :
  argsort_contract argsort → argsort_contract argsort' →
  map_Forall (λ _, unique_ids) (files w) →
  _generate_examples argsort cfg w paths object_ids
  = _generate_examples argsort' cfg w paths object_ids.
Proof. intros H H' Hnd. by apply for_files_NoDup. Qed.

Lemma traversal_distinct_ids_witness :
  argsort_contract argsort_stable ∧ argsort_contract argsort_reversing ∧
  map_Forall (λ _, unique_ids) (files two_file_world) ∧
  _generate_examples argsort_stable (builder_config "gz10") two_file_world
    ["a.h5"; "b.h5"] (Some [[25; 10]; [30]])
  = _generate_examples argsort_reversing (builder_config "gz10") two_file_world
      ["a.h5"; "b.h5"] (Some [[25; 10]; [30]]).
Proof.
  assert (Hnd : map_Forall (λ _, unique_ids) (files two_file_world))
    by (apply (bool_decide_unpack _); exact I).
  split; [exact argsort_stable_contract|].
  split; [exact argsort_reversing_contract|]. split; [exact Hnd|].
  exact (traversal_distinct_ids argsort_stable argsort_reversing
           (builder_config "gz10") two_file_world ["a.h5"; "b.h5"]
           (Some [[25; 10]; [30]])
           argsort_stable_contract argsort_reversing_contract Hnd).
Defined.

(** * Further properties of the traversal *)

(** ** Splitting the file list *)

Section file_lists.
Variable argsort : list Z → list nat.
Variable cfg : Config.

Lemma select_keys_drop (object_ids : option (list (list Z))) (n j : nat)
    (data : H5File) :
  select_keys object_ids (n + j) data = select_keys (drop n <$> object_ids) j data.
Proof.
  destruct object_ids as [oids|]; simpl; [|done]. by rewrite lookup_drop.
Qed.

(** Starting the enumeration at [n + j] is starting it at [j] with the
    first [n] key lists dropped. *)
Lemma for_files_shift (w : World) (n j : nat) (paths : list string)
    (object_ids : option (list (list Z))) :
  for_files argsort cfg w (n + j) paths object_ids
  = for_files argsort cfg w j paths (drop n <$> object_ids).
Proof.
  revert j. induction paths as [|file_path paths IH]; intros j; simpl; [done|].
  destruct (h5py_File w file_path) as [e|[data w1]] eqn:Hopen; [done|].
  apply h5py_close_File in Hopen as [_ ->].
  unfold shard_body. rewrite select_keys_drop.
  replace (S (n + j)) with (n + S j)%nat by lia. by rewrite IH.
Qed.

Lemma for_files_app (w : World) (j : nat) (paths1 paths2 : list string)
    (object_ids : option (list (list Z))) :
  (for_files argsort cfg w j (paths1 ++ paths2) object_ids).1
  = run_then (for_files argsort cfg w j paths1 object_ids).1
             (for_files argsort cfg w (length paths1 + j) paths2 object_ids).1.
Proof.
  revert j. induction paths1 as [|file_path paths1 IH]; intros j; simpl.
  - unfold run_then. simpl. by destruct (for_files _ _ _ _ _ _) as [[em r] w'].
  - destruct (h5py_File w file_path) as [e|[data w1]] eqn:Hopen; [done|].
    apply h5py_close_File in Hopen as [_ ->].
    destruct (shard_body argsort cfg j data object_ids) as [em [e|]]; simpl;
      [done|].
    specialize (IH (S j)).
    replace (length paths1 + S j)%nat with (S (length paths1 + j)) in IH by lia.
    destruct (for_files argsort cfg w (S j) (paths1 ++ paths2) object_ids)
      as [r12 w12].
    destruct (for_files argsort cfg w (S j) paths1 object_ids) as [r1 w1'].
    simpl in *. rewrite IH. unfold run_then. simpl.
    destruct (raised r1) eqn:Hr1; simpl; rewrite ?Hr1; simpl; [done|].
    by rewrite app_assoc.
Qed.

(** Only the key lists of the files traversed are read. *)
Lemma for_files_key_lists (w : World) (j : nat) (paths : list string)
    (oids oids' : list (list Z)) :
  (∀ i, (j ≤ i < j + length paths)%nat → oids !! i = oids' !! i) →
  for_files argsort cfg w j paths (Some oids)
  = for_files argsort cfg w j paths (Some oids').
Proof.
  revert j. induction paths as [|file_path paths IH]; intros j Hsame; simpl;
    [done|].
  destruct (h5py_File w file_path) as [e|[data w1]] eqn:Hopen; [done|].
  apply h5py_close_File in Hopen as [_ ->].
  unfold shard_body, select_keys. rewrite (Hsame j) by (simpl; lia).
  rewrite (IH (S j)); [done|]. intros i Hi. apply Hsame. simpl. lia.
Qed.

(** A traversal that completes has found a key list for every file. *)
Lemma for_files_completes (w : World) (j : nat) (paths : list string)
    (oids : list (list Z)) :
  raised (for_files argsort cfg w j paths (Some oids)).1 = None →
  (j + length paths ≤ length oids)%nat ∨ paths = [].
Proof.
  revert j. induction paths as [|file_path paths IH]; intros j; simpl;
    [by right|].
  destruct (h5py_File w file_path) as [e|[data w1]] eqn:Hopen; [done|].
  apply h5py_close_File in Hopen as [_ ->].
  destruct (shard_body argsort cfg j data (Some oids)) as [em [e|]] eqn:Hbody;
    simpl; [done|].
  assert (j < length oids)%nat as Hj.
  { unfold shard_body, select_keys in Hbody.
    destruct (oids !! j) as [ks|] eqn:Hks; [|done].
    by apply lookup_lt_Some in Hks. }
  specialize (IH (S j)).
  destruct (for_files argsort cfg w (S j) paths (Some oids)) as [r' w'].
  simpl in *. intros Hr. left. destruct (IH Hr) as [?| ->]; simpl; lia.
Qed.
End file_lists.

(** X8: Traversing a concatenated file list is traversing its two parts one
    after the other, the second part with the key lists that remain; an
    exception in the first part ends the whole with the pairs emitted so
    far. *)
Theorem traversal_of_concatenation (argsort : list Z → list nat)
    (cfg : Config) (w : World) (paths1 paths2 : list string)
    (object_ids : option (list (list Z))) :
  (_generate_examples argsort cfg w (paths1 ++ paths2) object_ids).1
  = run_then
      (_generate_examples argsort cfg w paths1 object_ids).1
      (_generate_examples argsort cfg w paths2
         (drop (length paths1) <$> object_ids)).1.
Proof.
  unfold _generate_examples. rewrite for_files_app.
  by rewrite for_files_shift.
Qed.

(** X9: A file that cannot be opened ends the traversal with
    [FileNotFoundError] for that file; the pairs of the files before it
    have been emitted, and no file after it is read. *)
Theorem missing_file_ends_traversal (argsort : list Z → list nat)
    (cfg : Config) (w : World) (paths1 paths2 : list string)
    (file_path : string) (object_ids : option (list (list Z))) :
  files w !! file_path = None →
  raised (_generate_examples argsort cfg w paths1 object_ids).1 = None →
  (_generate_examples argsort cfg w (paths1 ++ file_path :: paths2)
     object_ids).1
  = {| emitted := emitted (_generate_examples argsort cfg w paths1 object_ids).1;
       raised := Some (FileNotFoundError file_path) |}.
Proof.
  intros Hmissing Hdone. unfold _generate_examples in *.
  rewrite for_files_app. unfold run_then. rewrite Hdone. simpl.
  unfold h5py_File. rewrite Hmissing. simpl. by rewrite app_nil_r.
Qed.

Lemma missing_file_ends_traversal_witness :
  files two_file_world !! "c.h5" = None ∧
  raised (_generate_examples argsort_stable (builder_config "gz10")
            two_file_world ["a.h5"] None).1 = None ∧
  (_generate_examples argsort_stable (builder_config "gz10") two_file_world
     (["a.h5"] ++ "c.h5" :: ["b.h5"]) None).1
  = {| emitted := emitted (_generate_examples argsort_stable
                             (builder_config "gz10") two_file_world
                             ["a.h5"] None).1;
       raised := Some (FileNotFoundError "c.h5") |}.
Proof.
  split; [reflexivity|]. split; [reflexivity|].
  exact (missing_file_ends_traversal argsort_stable (builder_config "gz10")
           two_file_world ["a.h5"] ["b.h5"] "c.h5" None eq_refl eq_refl).
Defined.

(** X11: Only the first [len(files)] key lists are read: further entries of
    [object_ids] change nothing. *)
Theorem surplus_key_lists_ignored (argsort : list Z → list nat)
    (cfg : Config) (w : World) (paths : list string)
    (oids : list (list Z)) :
  _generate_examples argsort cfg w paths (Some oids)
  = _generate_examples argsort cfg w paths (Some (take (length paths) oids)).
Proof.
  unfold _generate_examples. apply for_files_key_lists.
  intros i Hi. by rewrite lookup_take_lt by lia.
Qed.

(** X12: With fewer key lists than files, a traversal cannot complete: it ends
    with an exception. *)
Theorem missing_key_list_raises (argsort : list Z → list nat)
    (cfg : Config) (w : World) (paths : list string)
    (oids : list (list Z)) :
  (length oids < length paths)%nat →
  is_Some (raised (_generate_examples argsort cfg w paths (Some oids)).1).
Proof.
  intros Hlen. unfold _generate_examples.
  destruct (raised (for_files argsort cfg w 0 paths (Some oids)).1) eqn:Hr;
    [by eexists|].
  apply for_files_completes in Hr as [Hr| ->]; simpl in *; lia.
Qed.

Lemma missing_key_list_raises_witness :
  (length [[10]] < length ["a.h5"; "b.h5"])%nat ∧
  (_generate_examples argsort_stable (builder_config "gz10") two_file_world
     ["a.h5"; "b.h5"] (Some [[10]])).1.(raised) = Some IndexError ∧
  is_Some (raised (_generate_examples argsort_stable (builder_config "gz10")
                     two_file_world ["a.h5"; "b.h5"] (Some [[10]])).1).
Proof.
  assert (Hlen : (length [[10]] < length ["a.h5"; "b.h5"])%nat)
    by (simpl; lia).
  split; [exact Hlen|]. split; [reflexivity|].
  exact (missing_key_list_raises argsort_stable (builder_config "gz10")
           two_file_world ["a.h5"; "b.h5"] [[10]] Hlen).
Defined.

(** ** The catalogue-only variant and the image columns *)

Section catalog_variant.
Variable argsort : list Z → list nat.
Variable cfg : Config.
Hypothesis catalog_only : name cfg ≠ "gz10_rgb_images".

Lemma example_for_without_images (data : H5File) (index : list nat * list Z)
    (k : Z) :
  example_for cfg (without_images data) index k = example_for cfg data index k.
Proof.
  unfold example_for. simpl.
  by destruct (decide (name cfg = "gz10_rgb_images")).
Qed.

Lemma shard_body_without_images (j : nat) (data : H5File)
    (object_ids : option (list (list Z))) :
  shard_body argsort cfg j (without_images data) object_ids
  = shard_body argsort cfg j data object_ids.
Proof.
  unfold shard_body, select_keys. simpl.
  destruct (_ ←ᵣ _; _ ←ᵣ _; _) as [e|[keys index]]; [done|].
  induction keys as [|k keys IH]; simpl; [done|].
  by rewrite example_for_without_images, IH.
Qed.

Lemma for_files_without_images (w : World) (j : nat) (paths : list string)
    (object_ids : option (list (list Z))) :
  (for_files argsort cfg
     {| files := without_images <$> files w; handles := handles w |}
     j paths object_ids).1
  = (for_files argsort cfg w j paths object_ids).1.
Proof.
  revert j. induction paths as [|file_path paths IH]; intros j; simpl; [done|].
  unfold h5py_File at 1 2. simpl. rewrite lookup_fmap.
  destruct (files w !! file_path) as [data|] eqn:Hdata; simpl; [|done].
  rewrite shard_body_without_images.
  destruct (raised (shard_body argsort cfg j data object_ids)); [done|].
  unfold h5py_close. simpl.
  replace {| files := files w; handles := handles w |} with w
    by (by destruct w).
  specialize (IH (S j)).
  destruct (for_files argsort cfg _ (S j) paths object_ids) as [r1 w1].
  destruct (for_files argsort cfg w (S j) paths object_ids) as [r2 w2].
  simpl in IH. by subst.
Qed.
End catalog_variant.

(** X13: A variant other than [gz10_rgb_images] never reads the image and
    pixel-scale columns: taking them away from every shard changes neither
    the emitted pairs nor the way the traversal ends. *)
Theorem catalog_variant_ignores_images (argsort : list Z → list nat)
    (cfg : Config) (w : World) (paths : list string)
    (object_ids : option (list (list Z))) :
  name cfg ≠ "gz10_rgb_images" →
  (_generate_examples argsort cfg
     {| files := without_images <$> files w; handles := handles w |}
     paths object_ids).1
  = (_generate_examples argsort cfg w paths object_ids).1.
Proof. intros Hname. by apply for_files_without_images. Qed.

Lemma catalog_variant_ignores_images_witness :
  name (builder_config "gz10") ≠ "gz10_rgb_images" ∧
  (_generate_examples argsort_stable (builder_config "gz10")
     {| files := without_images <$>
                   files (single_file_world "a.h5"
                            (scenario_shard (Some [[1]; [2]; [3]]) None));
        handles := [] |}
     ["a.h5"] None).1
  = (_generate_examples argsort_stable (builder_config "gz10")
       (single_file_world "a.h5" (scenario_shard (Some [[1]; [2]; [3]]) None))
       ["a.h5"] None).1.
Proof.
  assert (Hname : name (builder_config "gz10") ≠ "gz10_rgb_images")
    by discriminate.
  split; [exact Hname|].
  exact (catalog_variant_ignores_images argsort_stable (builder_config "gz10")
           (single_file_world "a.h5" (scenario_shard (Some [[1]; [2]; [3]]) None))
           ["a.h5"] None Hname).
Defined.

(** ** Every record is read from one row *)

Lemma example_for_reads_row (cfg : Config) (data : H5File)
    (index : list nat * list Z) (k : Z) (kv : string * gmap string Value) :
  example_for cfg data index k = inr kv →
  ∃ i, lookup_row index k = inr i ∧ reads_row cfg data i kv.
Proof.
  destruct kv as [key ex]. intros H.
  apply example_for_inr in H
    as (i & label & z & oid & Hi & Hlabel & Hz & Hoid & -> & H).
  cbv zeta in H. exists i. split; [done|].
  exists oid, label, z. simpl. split_and!; [done..| | | |].
  - destruct (decide (name cfg = "gz10_rgb_images")).
    + destruct H as (image & pxscale & _ & _ & ->). apply lookup_insert_eq.
    + subst ex. apply lookup_insert_eq.
  - destruct (decide (name cfg = "gz10_rgb_images")).
    + destruct H as (image & pxscale & _ & _ & ->). by simplify_map_eq.
    + subst ex. by simplify_map_eq.
  - destruct (decide (name cfg = "gz10_rgb_images")).
    + destruct H as (image & pxscale & _ & _ & ->). by simplify_map_eq.
    + subst ex. by simplify_map_eq.
  - destruct (decide (name cfg = "gz10_rgb_images")); [|done].
    destruct H as (image & pxscale & Himage & Hpx & ->).
    exists image, pxscale. split_and!; [done|done| |]; by simplify_map_eq.
Qed.

Lemma requests_from_origin (fs : gmap string H5File)
    (object_ids : option (list (list Z))) (j : nat) (paths : list string)
    (req : H5File * Z) :
  req ∈ requests_from fs object_ids j paths →
  ∃ file_path, file_path ∈ paths ∧ fs !! file_path = Some req.1.
Proof.
  revert j. induction paths as [|file_path paths IH]; intros j; simpl.
  - intros H. by apply elem_of_nil in H.
  - intros [H|H]%elem_of_app.
    + exists file_path. split; [left|]. unfold shard_requests in H.
      destruct (fs !! file_path) as [data|]; [|by apply elem_of_nil in H].
      destruct (select_keys object_ids j data) as [e|keys];
        [by apply elem_of_nil in H|].
      apply list_elem_of_fmap in H as (k & -> & _). done.
    + destruct (IH _ H) as (p & Hp & Hfs). exists p. split; [by right|done].
Qed.

(** X14: Every emitted pair is read from one row of one shard of the file list:
    key, [object_id], label, redshift and, under [gz10_rgb_images], image
    and pixel scale all come from that row. *)
Theorem emitted_pairs_read_one_row (argsort : list Z → list nat)
    (cfg : Config) (w : World) (paths : list string)
    (object_ids : option (list (list Z))) :
  Forall (λ kv, ∃ file_path data i,
                  file_path ∈ paths ∧
                  files w !! file_path = Some data ∧
                  reads_row cfg data i kv)
    (emitted (_generate_examples argsort cfg w paths object_ids).1).
Proof.
  destruct (for_files_spec argsort cfg w 0 paths object_ids) as [H _].
  apply Forall_lookup. intros n kv Hn.
  destruct (Forall2_lookup_l _ _ _ _ _ H Hn) as ([data k] & Hreq & Hans).
  apply lookup_take_Some in Hreq as [Hreq _].
  apply list_elem_of_lookup_2, requests_from_origin in Hreq
    as (file_path & Hpath & Hdata).
  unfold answer in Hans. apply rbind_inr in Hans as (index & _ & Hex).
  apply example_for_reads_row in Hex as (i & _ & Hrow).
  exists file_path, data, i. done.
Qed.

(** ** Traversals that complete *)

Section complete_traversals.
Variable argsort : list Z → list nat.
Hypothesis argsort_ok : argsort_contract argsort.
Variable cfg : Config.

(** In a complete shard, the loop body succeeds for every key that
    occurs in the identifier column, and its key is that identifier. *)
Lemma example_for_complete (data : H5File) (ids : list Z)
    (index : list nat * list Z) (k : Z) :
  complete_shard cfg data → h5_object_id data = Some ids →
  build_index argsort (Some ids) = inr index → k ∈ ids →
  ∃ ex, example_for cfg data index k = inr (str k, ex).
Proof.
  intros (ids' & labels & zs & Hids' & Hlabels & Hzs & Hl & Hz & Himg)
         Hids Hb Hk.
  assert (ids' = ids) as -> by congruence.
  destruct (lookup_row_present argsort argsort_ok ids index k Hb Hk)
    as (i & Hi & Hik).
  pose proof (lookup_lt_Some _ _ _ Hik) as Hlt.
  destruct (lookup_lt_is_Some_2 labels i) as [label Hlabel]; [lia|].
  destruct (lookup_lt_is_Some_2 zs i) as [z Hzi]; [lia|].
  unfold example_for. rewrite Hi. simpl. unfold getitem.
  rewrite Hlabels, Hlabel, Hzs, Hzi, Hids, Hik. simpl.
  destruct (decide (name cfg = "gz10_rgb_images")) as [Hname|Hname].
  - destruct (Himg Hname) as (images & pxs & -> & -> & Hi1 & Hi2).
    destruct (lookup_lt_is_Some_2 images i) as [image ->]; [lia|].
    destruct (lookup_lt_is_Some_2 pxs i) as [px ->]; [lia|].
    simpl. eauto.
  - simpl. eauto.
Qed.

Lemma for_keys_complete (data : H5File) (ids : list Z)
    (index : list nat * list Z) (keys : list Z) :
  complete_shard cfg data → h5_object_id data = Some ids →
  build_index argsort (Some ids) = inr index →
  Forall (λ k, k ∈ ids) keys →
  raised (for_keys cfg data index keys) = None ∧
  (emitted (for_keys cfg data index keys)).*1 = str <$> keys.
Proof.
  intros Hc Hids Hb. induction 1 as [|k keys Hk _ IH]; [done|].
  cbn [for_keys].
  destruct (example_for_complete data ids index k Hc Hids Hb Hk) as [ex ->].
  cbn [emitted raised]. destruct IH as [IH1 IH2]. split; [exact IH1|].
  rewrite !fmap_cons. by rewrite IH2.
Qed.

Lemma for_files_complete (w : World) (j : nat) (paths : list string)
    (object_ids : option (list (list Z))) :
  Forall (λ file_path, ∃ data, files w !! file_path = Some data ∧
                               complete_shard cfg data) paths →
  (∀ oids, object_ids = Some oids → (j + length paths ≤ length oids)%nat) →
  Forall key_present (requests_from (files w) object_ids j paths) →
  let r := (for_files argsort cfg w j paths object_ids).1 in
  raised r = None ∧
  (emitted r).*1 = str <$> (requests_from (files w) object_ids j paths).*2.
Proof.
  intros Hfiles. revert j.
  induction Hfiles as [|file_path paths (data & Hdata & Hc) _ IH];
    intros j Hlen Hkeys; simpl; [done|].
  simpl in Hkeys. apply Forall_app in Hkeys as [Hkeys1 Hkeys2].
  unfold h5py_File. rewrite Hdata. unfold h5py_close. simpl.
  replace {| files := files w; handles := handles w |} with w
    by (by destruct w).
  pose proof Hc as (ids & _ & _ & Hids & _).
  destruct (build_index_ok argsort argsort_ok ids) as (s & Hb & _).
  assert (∃ keys, select_keys object_ids j data = inr keys) as [keys Hsel].
  { unfold select_keys. destruct object_ids as [oids|].
    - destruct (lookup_lt_is_Some_2 oids j) as [ks ->]; [|by eauto].
      specialize (Hlen oids eq_refl). simpl in Hlen. lia.
    - rewrite Hids. eauto. }
  unfold shard_requests in *. rewrite Hdata, Hsel in *.
  unfold shard_body. rewrite Hsel, Hids, Hb. simpl.
  destruct (for_keys_complete data ids (argsort ids, s) keys Hc Hids Hb)
    as [Hr Hem].
  { rewrite Forall_fmap in Hkeys1. eapply Forall_impl; [exact Hkeys1|].
    intros k (ids' & Hids' & Hk). simpl in *.
    assert (ids' = ids) as -> by congruence. done. }
  rewrite Hr.
  destruct (IH (S j)) as [IH1 IH2]; [|exact Hkeys2|].
  { intros oids Ho. specialize (Hlen oids Ho). simpl in Hlen. lia. }
  destruct (for_files argsort cfg w (S j) paths object_ids) as [r' w'].
  simpl in *. split; [exact IH1|].
  rewrite !fmap_app, Hem, IH2. f_equal.
  by rewrite <- !list_fmap_compose.
Qed.

Lemma requests_from_enumerated_ids (fs : gmap string H5File) (j : nat)
    (paths : list string) :
  (requests_from fs None j paths).*2 = enumerated_ids fs paths.
Proof.
  unfold enumerated_ids. revert j.
  induction paths as [|file_path paths IH]; intros j; simpl; [done|].
  rewrite fmap_app, IH. f_equal. unfold shard_requests.
  destruct (fs !! file_path) as [data|]; simpl; [|done].
  destruct (h5_object_id data) as [ids|]; simpl; [|done].
  rewrite <- list_fmap_compose. apply list_fmap_id.
Qed.
Lemma requests_from_supplied (fs : gmap string H5File) (oids : list (list Z))
    (j : nat) (paths : list string) :
  Forall (λ file_path, is_Some (fs !! file_path)) paths →
  (j + length paths ≤ length oids)%nat →
  (requests_from fs (Some oids) j paths).*2
  = mjoin (take (length paths) (drop j oids)).
Proof.
  intros Hfiles. revert j.
  induction Hfiles as [|file_path paths [data Hdata] _ IH]; intros j Hlen;
    simpl; [done|].
  destruct (lookup_lt_is_Some_2 oids j) as [ks Hks]; [simpl in Hlen; lia|].
  unfold shard_requests. rewrite Hdata. simpl. rewrite Hks.
  rewrite (drop_S _ _ _ Hks). simpl.
  rewrite fmap_app, <- list_fmap_compose, IH by (simpl in Hlen; lia).
  f_equal. apply list_fmap_id.
Qed.
End complete_traversals.

(** X15: When every file of the list opens as a complete shard, there is a key
    list for every file and every requested key occurs in the identifier
    column of its shard, the traversal ends without an exception and the
    emitted keys are the requested identifiers, written as strings, in the
    order they were requested. *)
Theorem requested_traversal_completes (argsort : list Z → list nat)
    (cfg : Config) (w : World) (paths : list string)
    (oids : list (list Z)) :
  argsort_contract argsort →
  Forall (λ file_path, ∃ data, files w !! file_path = Some data ∧
                               complete_shard cfg data) paths →
  (length paths ≤ length oids)%nat →
  Forall key_present (requests (files w) (Some oids) paths) →
  let r := (_generate_examples argsort cfg w paths (Some oids)).1 in
  raised r = None ∧
  (emitted r).*1 = str <$> mjoin (take (length paths) oids).
Proof.
  intros Hargsort Hfiles Hlen Hkeys.
  destruct (for_files_complete argsort Hargsort cfg w 0 paths (Some oids)
              Hfiles) as [Hr Hem]; [|done|].
  { intros ? [= <-]. simpl. lia. }
  cbv zeta. unfold _generate_examples. split; [done|].
  rewrite Hem. f_equal.
  rewrite (requests_from_supplied (files w) oids 0 paths); [done| |lia].
  eapply Forall_impl; [exact Hfiles|]. intros p (data & -> & _). by eexists.
Qed.

(** X16: When every file of the list opens as a complete shard and no
    identifiers are supplied, the traversal ends without an exception and
    emits one pair for every row of every shard, in file order and row
    order: the emitted keys are the identifier columns, written as
    strings, one after the other. *)
Theorem enumeration_completes (argsort : list Z → list nat)
    (cfg : Config) (w : World) (paths : list string) :
  argsort_contract argsort →
  Forall (λ file_path, ∃ data, files w !! file_path = Some data ∧
                               complete_shard cfg data) paths →
  let r := (_generate_examples argsort cfg w paths None).1 in
  raised r = None ∧
  (emitted r).*1 = str <$> enumerated_ids (files w) paths.
Proof.
  intros Hargsort Hfiles.
  destruct (for_files_complete argsort Hargsort cfg w 0 paths None Hfiles)
    as [Hr Hem]; [done|apply requests_from_enumerated|].
  cbv zeta. unfold _generate_examples. split; [done|].
  by rewrite Hem, requests_from_enumerated_ids.
Qed.

Ltac complete_shard_tac :=
  eexists; split; [reflexivity|];
  eexists _, _, _; split_and!;
  [reflexivity|reflexivity|reflexivity|simpl; lia|simpl; lia|discriminate].

Lemma two_file_world_complete :
  Forall (λ file_path, ∃ data, files two_file_world !! file_path = Some data ∧
                               complete_shard (builder_config "gz10") data)
         ["a.h5"; "b.h5"].
Proof. repeat constructor; complete_shard_tac. Defined.

Lemma enumeration_completes_witness :
  argsort_contract argsort_stable ∧
  enumerated_ids (files two_file_world) ["a.h5"; "b.h5"] = [10; 20; 30; 30; 10] ∧
  let r := (_generate_examples argsort_stable (builder_config "gz10")
              two_file_world ["a.h5"; "b.h5"] None).1 in
  raised r = None ∧
  (emitted r).*1 = str <$> enumerated_ids (files two_file_world) ["a.h5"; "b.h5"].
Proof.
  split; [exact argsort_stable_contract|]. split; [reflexivity|].
  exact (enumeration_completes argsort_stable (builder_config "gz10")
           two_file_world ["a.h5"; "b.h5"] argsort_stable_contract
           two_file_world_complete).
Defined.

Lemma requested_traversal_completes_witness :
  argsort_contract argsort_stable ∧
  (length ["a.h5"; "b.h5"] ≤ length [[30; 10; 30]; [10]; [99]])%nat ∧
  let r := (_generate_examples argsort_stable (builder_config "gz10")
              two_file_world ["a.h5"; "b.h5"]
              (Some [[30; 10; 30]; [10]; [99]])).1 in
  raised r = None ∧
  (emitted r).*1
  = str <$> mjoin (take (length ["a.h5"; "b.h5"]) [[30; 10; 30]; [10]; [99]]).
Proof.
  assert (Hlen : (length ["a.h5"; "b.h5"]
                  ≤ length [[30; 10; 30]; [10]; [99]])%nat) by (simpl; lia).
  assert (Hkeys : Forall key_present
                    (requests (files two_file_world)
                       (Some [[30; 10; 30]; [10]; [99]]) ["a.h5"; "b.h5"])).
  { repeat constructor; (eexists; split; [reflexivity|]);
      simpl; repeat constructor. }
  split; [exact argsort_stable_contract|]. split; [exact Hlen|].
  exact (requested_traversal_completes argsort_stable (builder_config "gz10")
           two_file_world ["a.h5"; "b.h5"] [[30; 10; 30]; [10]; [99]]
           argsort_stable_contract two_file_world_complete Hlen Hkeys).
Defined.

(** * Properties of [_info] *)

(** ** Splitting and joining lines *)

Lemma str_split_nonempty (sep : ascii) (s : string) : str_split sep s ≠ [].
Proof.
  destruct s as [|a s]; simpl; [done|].
  destruct (decide (a = sep)); [done|]. by destruct (str_split sep s).
Qed.

Lemma str_split_app_sep (sep : ascii) (s1 s2 : string) :
  str_split sep (s1 +:+ String sep s2) = str_split sep s1 ++ str_split sep s2.
Proof.
  induction s1 as [|a s1 IH]; simpl.
  - by rewrite decide_True.
  - destruct (decide (a = sep)); [by rewrite IH|].
    rewrite IH. pose proof (str_split_nonempty sep s1).
    by destruct (str_split sep s1).
Qed.

Lemma str_split_no_sep (sep : ascii) (s : string) :
  contains sep s = false → str_split sep s = [s].
Proof.
  induction s as [|a s IH]; simpl; [done|].
  destruct (decide (a = sep)); [done|]. intros H. by rewrite IH.
Qed.

Lemma str_split_pieces (sep : ascii) (s : string) :
  Forall (λ piece, contains sep piece = false) (str_split sep s).
Proof.
  induction s as [|a s IH]; simpl; [by repeat constructor|].
  destruct (decide (a = sep)); [by constructor|].
  destruct (str_split sep s) as [|piece pieces].
  - repeat constructor. simpl. by rewrite decide_False.
  - inversion_clear IH. constructor; [|done]. simpl. by rewrite decide_False.
Qed.

Lemma str_split_join (sep : ascii) (pieces : list string) :
  pieces ≠ [] → Forall (λ piece, contains sep piece = false) pieces →
  str_split sep (str_join sep pieces) = pieces.
Proof.
  intros Hne Hall. induction Hall as [|piece pieces Hp Hall IH]; [done|].
  unfold str_join in *. destruct pieces as [|piece' pieces].
  - simpl. by apply str_split_no_sep.
  - change (String.concat (String sep "") (piece :: piece' :: pieces))
      with (piece +:+ String sep (String.concat (String sep "")
                                    (piece' :: pieces))).
    rewrite str_split_app_sep, IH by done.
    by rewrite str_split_no_sep.
Qed.

(** X21: Joining the pieces of a split gives the string back. *)
Theorem str_join_split (sep : ascii) (s : string) :
  str_join sep (str_split sep s) = s.
Proof.
  unfold str_join. induction s as [|a s IH]; simpl; [done|].
  destruct (decide (a = sep)) as [->|Hne].
  - pose proof (str_split_nonempty sep s).
    destruct (str_split sep s) as [|piece pieces]; [done|].
    simpl in *. by rewrite IH.
  - pose proof (str_split_nonempty sep s).
    destruct (str_split sep s) as [|piece pieces]; [done|].
    destruct pieces; simpl in *; by rewrite <- IH.
Qed.

(** ** The citation *)

(** X20: The citation [_info] returns reads, line by line: the lines of
    [_ACKNOWLEDGEMENTS], each with "% " put in front, then the lines of
    [_CITATION]; no line is lost, merged or left without its mark. *)
Theorem info_citation_lines (_CITATION _ACKNOWLEDGEMENTS _DESCRIPTION : string)
    (cfg : Config) :
  str_split newline
    (citation (_info _CITATION _ACKNOWLEDGEMENTS _DESCRIPTION cfg))
  = ((λ line, "% " +:+ line) <$> str_split newline _ACKNOWLEDGEMENTS)
      ++ str_split newline _CITATION.
Proof.
  unfold _info. cbn [citation].
  change (String newline "" +:+ _CITATION) with (String newline _CITATION).
  rewrite str_split_app_sep. f_equal. apply str_split_join.
  - pose proof (str_split_nonempty newline _ACKNOWLEDGEMENTS).
    by destruct (str_split newline _ACKNOWLEDGEMENTS).
  - apply Forall_fmap. eapply Forall_impl; [apply str_split_pieces|].
    intros line Hline. simpl. exact Hline.
Qed.

(** ** The declared features *)

Lemma info_feature_names (_CITATION _ACKNOWLEDGEMENTS _DESCRIPTION : string)
    (cfg : Config) :
  dom (features (_info _CITATION _ACKNOWLEDGEMENTS _DESCRIPTION cfg))
  = if decide (name cfg = "gz10_rgb_images")
    then image_fields else catalog_fields.
Proof.
  unfold _info, image_fields, catalog_fields. cbn [features].
  destruct (decide (name cfg = "gz10_rgb_images"));
    rewrite !dom_insert_L, dom_empty_L; set_solver.
Qed.

(** X19: For every configuration name, the fields of every emitted record are
    exactly the features that [_info] declares for that configuration. *)
Theorem records_match_declared_features
    (_CITATION _ACKNOWLEDGEMENTS _DESCRIPTION : string)
    (argsort : list Z → list nat) (cfg : Config) (w : World)
    (paths : list string) (object_ids : option (list (list Z))) :
  Forall (λ kv, dom kv.2
                = dom (features (_info _CITATION _ACKNOWLEDGEMENTS
                                   _DESCRIPTION cfg)))
    (emitted (_generate_examples argsort cfg w paths object_ids).1).
Proof.
  eapply Forall_impl; [apply for_files_emitted|].
  intros kv (data & index & k & H). apply example_for_fields in H.
  by rewrite info_feature_names.
Qed.

(** * Properties of [_split_generators] *)

(** X22: [_split_generators] raises only when [data_files] is [None] or empty;
    otherwise it returns one split generator per entry, in the order of
    the entries and under their names, whose files are the entry's list,
    or the one path of an entry that is a single string.  An entry with an
    empty list is accepted. *)
Theorem split_generators_characterised (cfg : Config) :
  match _split_generators cfg with
  | inl e =>
      (data_files cfg = None ∧ e = no_data_files "None") ∨
      (data_files cfg = Some [] ∧ e = no_data_files "{}")
  | inr splits =>
      ∃ items, data_files cfg = Some items ∧ items ≠ [] ∧
               split_name <$> splits = items.*1 ∧
               Forall2 (λ sg item,
                          match item.2 with
                          | FilesStr s => gen_kwargs_files sg = [s]
                          | FilesList l => gen_kwargs_files sg = l
                          end) splits items
  end.
Proof.
  unfold _split_generators. destruct (data_files cfg) as [[|item items]|].
  - by right.
  - exists (item :: items). split_and!; [done|done| |].
    + rewrite <- list_fmap_compose. done.
    + apply Forall2_fmap_l, Forall_Forall2_diag, Forall_forall.
      intros [n [s|l]] _; done.
  - by left.
Qed.

(** * Properties of the casts *)

(** X18: Distinct identifiers are written as distinct strings: two keys, or two
    [object_id] fields, are equal only if the identifiers are. *)
Theorem str_injective (z1 z2 : Z) : str z1 = str z2 → z1 = z2.
Proof.
  unfold str. intros H. apply to_int_inj.
  assert (∀ z, NilZero.int_of_string (NilZero.string_of_int (Z.to_int z))
               = Some (Z.to_int z)) as Hisi.
  { intros z. apply NilZero.isi; destruct z; simpl; try done;
      intros [= Hnil]; by apply Unsigned.to_uint_nonnil in Hnil. }
  pose proof (Hisi z1) as H1. rewrite H, Hisi in H1. congruence.
Qed.

Lemma str_injective_witness : str 20 = str 20 ∧ 20 = 20.
Proof. split; [reflexivity|]. exact (str_injective 20 20 eq_refl). Defined.

Lemma astype_int32_range (z : Z) :
  - 2 ^ 31 ≤ astype_int32 z < 2 ^ 31 ∧
  (astype_int32 z - z) mod 2 ^ 32 = 0 ∧
  (- 2 ^ 31 ≤ z < 2 ^ 31 → astype_int32 z = z).
Proof.
  unfold astype_int32.
  pose proof (Z.mod_pos_bound (z + 2 ^ 31) (2 ^ 32) ltac:(lia)) as Hb.
  split_and!.
  - lia.
  - lia.
  - rewrite (Z.mod_eq (z + 2 ^ 31)) by lia.
    replace (z + 2 ^ 31 - 2 ^ 32 * ((z + 2 ^ 31) `div` 2 ^ 32) - 2 ^ 31 - z)
      with ((- ((z + 2 ^ 31) `div` 2 ^ 32)) * 2 ^ 32) by lia.
    apply Z.mod_mul. lia.
  - intros Hz. rewrite Z.mod_small by lia. lia.
Qed.

(** X17: Every emitted record is read at one row of one shard of the file
    list, and its [gz10_label] is the label stored at that very row after
    the cast to 32 bits: a 32-bit signed integer that differs from the
    stored label by a multiple of 2^32, and the stored label itself when
    that fits 32 bits. *)
Theorem emitted_labels_are_int32 (argsort : list Z → list nat) (cfg : Config)
    (w : World) (paths : list string) (object_ids : option (list (list Z))) :
  Forall (λ kv, ∃ file_path data i oid label z,
                  file_path ∈ paths ∧
                  files w !! file_path = Some data ∧
                  reads_row cfg data i kv ∧
                  getitem "object_id" (h5_object_id data) i = inr oid ∧
                  kv.1 = str oid ∧
                  getitem "ans" (h5_ans data) i = inr label ∧
                  kv.2 !! "gz10_label" = Some (VInt32 z) ∧
                  - 2 ^ 31 ≤ z < 2 ^ 31 ∧
                  (z - label) mod 2 ^ 32 = 0 ∧
                  (- 2 ^ 31 ≤ label < 2 ^ 31 → z = label))
    (emitted (_generate_examples argsort cfg w paths object_ids).1).
Proof.
  destruct (for_files_spec argsort cfg w 0 paths object_ids) as [H _].
  apply Forall_lookup. intros n kv Hn.
  destruct (Forall2_lookup_l _ _ _ _ _ H Hn) as ([data k] & Hreq & Hans).
  apply lookup_take_Some in Hreq as [Hreq _].
  apply list_elem_of_lookup_2, requests_from_origin in Hreq
    as (file_path & Hpath & Hdata).
  unfold answer in Hans. apply rbind_inr in Hans as (index & _ & Hex).
  apply example_for_reads_row in Hex as (i & _ & Hrow).
  pose proof Hrow
    as (oid & label & z & Hoid & Hlabel & _ & Hkey & _ & Hfield & _).
  destruct (astype_int32_range label) as (Hr & Hm & Hid).
  exists file_path, data, i, oid, label, (astype_int32 label). done.
Qed.

(** * The cost of a lookup *)



(** * A shard without identifiers *)

(** X10: A file that opens but has no identifier column ends the traversal with
    [KeyError] for [object_id], also when the keys are supplied, since the
    index is built from that column; the pairs of the files before it have
    been emitted, and nothing is emitted for it or after it. *)
Theorem missing_identifier_column_ends_traversal
    (argsort : list Z → list nat) (cfg : Config) (w : World)
    (paths1 paths2 : list string) (file_path : string) (data : H5File)
    (object_ids : option (list (list Z))) :
  files w !! file_path = Some data →
  h5_object_id data = None →
  (∀ oids, object_ids = Some oids → is_Some (oids !! length paths1)) →
  raised (_generate_examples argsort cfg w paths1 object_ids).1 = None →
  (_generate_examples argsort cfg w (paths1 ++ file_path :: paths2)
     object_ids).1
  = {| emitted := emitted (_generate_examples argsort cfg w paths1 object_ids).1;
       raised := Some (KeyError "object_id") |}.
Proof.
  intros Hdata Hids Hkeys Hdone. unfold _generate_examples in *.
  rewrite for_files_app. unfold run_then. rewrite Hdone. simpl.
  unfold h5py_File. rewrite Hdata. simpl.
  unfold shard_body, select_keys. rewrite Hids, Nat.add_0_r.
  destruct object_ids as [oids|]; simpl.
  - destruct (Hkeys oids eq_refl) as [ks ->]. simpl. by rewrite app_nil_r.
  - by rewrite app_nil_r.
Qed.

Lemma missing_identifier_column_ends_traversal_witness :
  files three_file_world !! "c.h5" = Some headless_shard ∧
  h5_object_id headless_shard = None ∧
  raised (_generate_examples argsort_stable (builder_config "gz10")
            three_file_world ["a.h5"] (Some [[20]; [4]; [10]])).1 = None ∧
  (_generate_examples argsort_stable (builder_config "gz10") three_file_world
     (["a.h5"] ++ "c.h5" :: ["b.h5"]) (Some [[20]; [4]; [10]])).1
  = {| emitted := emitted (_generate_examples argsort_stable
                             (builder_config "gz10") three_file_world ["a.h5"]
                             (Some [[20]; [4]; [10]])).1;
       raised := Some (KeyError "object_id") |}.
Proof.
  split; [reflexivity|]. split; [reflexivity|]. split; [reflexivity|].
  refine (missing_identifier_column_ends_traversal argsort_stable
            (builder_config "gz10") three_file_world ["a.h5"] ["b.h5"] "c.h5"
            headless_shard (Some [[20]; [4]; [10]]) eq_refl eq_refl _ eq_refl).
  intros oids [= <-]. by eexists.
Defined.
